(** * The face-recognition attendance kiosk (operator-frontend)

    A shallow embedding of the recognition pipeline of
    [src/components/MainPage.jsx], of its variant
    [src/components/MainPage1.jsx] and of the MQTT notifier
    [services/mqttService.js], with the properties the specification
    states about them.

    React state ([useState]) and the webcam reference are the fields of a
    [World]; an [async] function is a computation in a state, exception
    and output monad [M]; every awaited external call (face detection, an
    HTTP request, the broker) takes its answer from an [Env]. Distances
    are rationals: the comparisons of the code are the only arithmetic on
    them.

    The [final] state of a computation is the state that its calls of the
    setters leave, from which React renders next. The modals are
    components declared inside the page component: a render that follows
    a change of the state of the page ([operators], [attendance]) mounts
    them anew, with the initial values of their own state. *)

From Stdlib Require Import List String Ascii ZArith QArith Bool Arith Lia.
From Stdlib Require Import DecimalString Qabs Permutation.
Import ListNotations.

Close Scope Q_scope.
Open Scope string_scope.
Open Scope list_scope.
Open Scope nat_scope.

Set Implicit Arguments.

(** ** Data model *)

(** A face descriptor ([Float32Array] of face-api.js). *)
Definition Descriptor : Type := list Q.

(** An operator record as the backend returns it. [ledIndex] is absent
    ([None]) on records stored without one. *)
Record Operator : Type := mkOperator {
  _id : string;
  name : string;
  employeeId : string;
  station : string;
  imagePath : string;
  ledIndex : option Z
}.

(** [faceapi.LabeledFaceDescriptors(label, descriptors)]. *)
Module LabeledFaceDescriptors.
Record t : Type := mk { label : string; descriptors : list Descriptor }.
End LabeledFaceDescriptors.

(** [faceapi.FaceMatch]: the answer of [findBestMatch]. *)
Module FaceMatch.
Record t : Type := mk { label : string; distance : Q }.
End FaceMatch.

(** The body of [POST /api/attendance/:line]. *)
Record AttendanceRecord : Type := mkAttendance {
  operatorId : string;
  date : string;
  timestamp : string
}.

(** The file chosen in the add-operator form. *)
Record File : Type := mkFile { file_name : string }.

(** The state of the add-operator form; every field is the text of its
    input. *)
Module FormData.
Record t : Type := mk {
  name : string;
  employeeId : string;
  station : string;
  ledIndex : string;
  file : option File
}.
End FormData.

(** The body of [POST /api/operators/:line]. *)
Module OperatorData.
Record t : Type := mk {
  name : string;
  employeeId : string;
  station : string;
  imagePath : string;
  ledIndex : Z
}.
End OperatorData.

(** The body of a request. *)
Inductive Body : Type :=
| attendanceBody (r : AttendanceRecord)
| failBody (station_ timestamp_ : string)
| uploadBody (f : File)
| operatorBody (data : OperatorData.t).

Record Request : Type := mkRequest { url : string; body : Body }.

(** A [MediaStreamTrack]; [stop_calls] counts the calls of [track.stop()],
    the track is live as long as it is [0]. *)
Record Track : Type := mkTrack { track_id : nat; stop_calls : nat }.

(** [webcamRef.current.video]. *)
Record Video : Type := mkVideo {
  readyState : nat;
  srcObject : option (list Track)
}.

(** The module-level [MQTTService] instance. [client] is [None] for
    [null]. *)
Record MQTTService : Type := mkMQTT {
  client : option nat;
  connected : bool
}.

(** The message of [publishLedStatus], before [JSON.stringify]. *)
Record LedMessage : Type := mkLed { led : Z; status : string }.

(** The texts shown with [alert]. *)
Inductive Alert : Type :=
| WebcamNotReady          (* 'Webcam is not ready. Please ensure camera access is granted.' *)
| NoOperatorsWithFaceData (* 'No operators with valid face data for this station.' *)
| NoFaceDetected          (* 'No face detected in webcam feed.' *)
| AttendanceMarked (op : Operator) (d : Q)
                          (* `Attendance marked successfully for ${name} ... (distance: ...)` *)
| MarkingFailedTryAgain   (* 'Error marking attendance. Please try again.' *)
| MatchedOperatorNotFound (* 'Matched operator not found.' *)
| NoSuitableOperator      (* 'No suitable operator found for the detected face (no match >= 60%).' *)
| RecognitionError        (* 'An error occurred during face recognition.' *)
| ErrorMarkingAttendance  (* 'Error marking attendance' *)
| NoValidDescriptors      (* 'No valid face descriptors found for operators.' *)
| NoValidDescriptorsInStation
                          (* 'No valid face descriptors found for operators in this station.' *)
| CameraAccessFailed      (* 'Failed to access webcam. Please ensure camera access is granted.' *)
| FillAllFields           (* 'Please fill all fields, including LED Index, and upload an image.' *)
| LedIndexOutOfRange      (* 'LED Index must be a number between 0 and 20.' *)
| OperatorAdded           (* 'Operator added successfully.' *)
| ErrorAddingOperator     (* `Error adding operator: ${errorMessage}` *)
| ErrorDeletingOperator.  (* `Error deleting operator: ${...}` *)

(** What a computation does to the outside, in order. A [console] entry
    keeps the constant first argument of the call. *)
Inductive Effect : Type :=
| alert (a : Alert)
| console_log (text : string)
| console_error (text : string)
| post (r : Request)
| delete (url_ : string)
| publish (topic : string) (m : LedMessage).

(** The React state of the page and of the mark-attendance modal, the
    webcam reference and the MQTT service instance. *)
Record World : Type := mkWorld {
  operators : list Operator;
  attendance : list AttendanceRecord;
  labeledDescriptors : list LabeledFaceDescriptors.t;
  isRecognizing : bool;
  selectedStation : string;
  showAddForm : bool;
  formData : FormData.t;
  preview : option string;
  webcamRef : option Video;
  mqttService : MQTTService
}.

(** The result of fetching a reference photo and detecting a face in it. *)
Inductive Photo : Type :=
| photo_error                  (* [fetchImage] or the detection throws *)
| photo_no_face                (* the detection is [undefined] *)
| photo_face (d : Descriptor).

(** The result of [detectSingleFace] on the live video. *)
Inductive Frame : Type :=
| frame_error
| frame_no_face
| frame_face (d : Descriptor).

(** The answers of everything awaited: the route parameter, the clock,
    face-api.js, the backend, [getUserMedia] and the broker.
    [http_post r = None] is a rejected request, [userMedia = None] a
    refused camera. [production] is [process.env.NODE_ENV ===
    'production'], [uniqueSuffix] the clock and random part of a file
    name; [upload], [create_operator] and [delete_operator] are the
    answers of the backend to the requests of the operators modal. *)
Record Env : Type := mkEnv {
  line : string;
  today : string;
  now : string;
  photo : Operator -> Photo;
  frame : Frame;
  findBestMatch : list LabeledFaceDescriptors.t -> Descriptor -> FaceMatch.t;
  http_post : Request -> option AttendanceRecord;
  userMedia : option (list Track);
  broker_ack : bool;
  production : bool;
  uniqueSuffix : string;
  upload : File -> option string;
  create_operator : OperatorData.t -> option Operator;
  delete_operator : string -> bool
}.

(** ** The monad of an [async] function *)

Inductive Exn : Type :=
| ReferenceError (what : string)
| TypeError (what : string)
| Error (what : string).

Inductive Res (A : Type) : Type :=
| Ret (a : A)
| Throw (e : Exn).
Arguments Throw {A} e.

Record Outcome (A : Type) : Type := mkOutcome {
  result : Res A;
  final : World;
  effects : list Effect
}.

Definition M (A : Type) : Type := World -> Outcome A.

Definition ret {A} (a : A) : M A :=
  fun w => mkOutcome (Ret a) w [].

Definition throw {A} (e : Exn) : M A :=
  fun w => mkOutcome (Throw e) w [].

Definition bind {A B} (m : M A) (k : A -> M B) : M B :=
  fun w =>
    match m w with
    | mkOutcome (Ret a) w1 effs1 =>
        match k a w1 with
        | mkOutcome r w2 effs2 => mkOutcome r w2 (effs1 ++ effs2)
        end
    | mkOutcome (Throw e) w1 effs1 => mkOutcome (Throw e) w1 effs1
    end.

(** [try { m } catch (error) { h error }] *)
Definition try_catch {A} (m : M A) (h : Exn -> M A) : M A :=
  fun w =>
    match m w with
    | mkOutcome (Ret a) w1 effs1 => mkOutcome (Ret a) w1 effs1
    | mkOutcome (Throw e) w1 effs1 =>
        match h e w1 with
        | mkOutcome r w2 effs2 => mkOutcome r w2 (effs1 ++ effs2)
        end
    end.

(** [try { m } finally { f }]: [f] runs on both exits, and an exception
    of [f] replaces the result of [m]. *)
Definition try_finally {A} (m : M A) (f : M unit) : M A :=
  fun w =>
    match m w with
    | mkOutcome r w1 effs1 =>
        match f w1 with
        | mkOutcome (Ret _) w2 effs2 => mkOutcome r w2 (effs1 ++ effs2)
        | mkOutcome (Throw e) w2 effs2 => mkOutcome (Throw e) w2 (effs1 ++ effs2)
        end
    end.

Definition get : M World := fun w => mkOutcome (Ret w) w [].
Definition emit (e : Effect) : M unit := fun w => mkOutcome (Ret tt) w [e].

Declare Scope js_scope.
Delimit Scope js_scope with js.
Notation "x <- m ;; k" := (bind m (fun x => k))
  (at level 61, m at next level, right associativity) : js_scope.
Notation "m ;; k" := (bind m (fun _ => k))
  (at level 61, right associativity) : js_scope.
Open Scope js_scope.

(** The setters of [useState], and the assignments to the webcam
    reference and to the service instance. *)
Definition setOperators (v : list Operator) : M unit :=
  fun w => mkOutcome (Ret tt)
    (mkWorld v (attendance w) (labeledDescriptors w) (isRecognizing w)
       (selectedStation w) (showAddForm w) (formData w) (preview w)
       (webcamRef w) (mqttService w)) [].

Definition setAttendance (v : list AttendanceRecord) : M unit :=
  fun w => mkOutcome (Ret tt)
    (mkWorld (operators w) v (labeledDescriptors w) (isRecognizing w)
       (selectedStation w) (showAddForm w) (formData w) (preview w)
       (webcamRef w) (mqttService w)) [].

Definition setLabeledDescriptors (v : list LabeledFaceDescriptors.t) : M unit :=
  fun w => mkOutcome (Ret tt)
    (mkWorld (operators w) (attendance w) v (isRecognizing w)
       (selectedStation w) (showAddForm w) (formData w) (preview w)
       (webcamRef w) (mqttService w)) [].

Definition setIsRecognizing (v : bool) : M unit :=
  fun w => mkOutcome (Ret tt)
    (mkWorld (operators w) (attendance w) (labeledDescriptors w) v
       (selectedStation w) (showAddForm w) (formData w) (preview w)
       (webcamRef w) (mqttService w)) [].

Definition setSelectedStation (v : string) : M unit :=
  fun w => mkOutcome (Ret tt)
    (mkWorld (operators w) (attendance w) (labeledDescriptors w)
       (isRecognizing w) v (showAddForm w) (formData w) (preview w)
       (webcamRef w) (mqttService w)) [].

Definition setShowAddForm (v : bool) : M unit :=
  fun w => mkOutcome (Ret tt)
    (mkWorld (operators w) (attendance w) (labeledDescriptors w)
       (isRecognizing w) (selectedStation w) v (formData w) (preview w)
       (webcamRef w) (mqttService w)) [].

Definition setFormData (v : FormData.t) : M unit :=
  fun w => mkOutcome (Ret tt)
    (mkWorld (operators w) (attendance w) (labeledDescriptors w)
       (isRecognizing w) (selectedStation w) (showAddForm w) v (preview w)
       (webcamRef w) (mqttService w)) [].

Definition setPreview (v : option string) : M unit :=
  fun w => mkOutcome (Ret tt)
    (mkWorld (operators w) (attendance w) (labeledDescriptors w)
       (isRecognizing w) (selectedStation w) (showAddForm w) (formData w)
       v (webcamRef w) (mqttService w)) [].

Definition setWebcamRef (v : option Video) : M unit :=
  fun w => mkOutcome (Ret tt)
    (mkWorld (operators w) (attendance w) (labeledDescriptors w)
       (isRecognizing w) (selectedStation w) (showAddForm w) (formData w)
       (preview w) v (mqttService w)) [].

Definition setMqttService (v : MQTTService) : M unit :=
  fun w => mkOutcome (Ret tt)
    (mkWorld (operators w) (attendance w) (labeledDescriptors w)
       (isRecognizing w) (selectedStation w) (showAddForm w) (formData w)
       (preview w) (webcamRef w) v) [].

(** ** Shared pieces of the two pages *)

(** [bestMatch.distance < 0.6] *)
Definition Qltb (x y : Q) : bool :=
  (Qnum x * Zpos (Qden y) <? Qnum y * Zpos (Qden x))%Z.

Definition threshold : Q := (6 # 10)%Q.

(** [new faceapi.FaceMatcher(inputs)]: the constructor of face-api.js
    refuses an empty array. *)
Definition FaceMatcher (inputs : list LabeledFaceDescriptors.t)
  : M (list LabeledFaceDescriptors.t) :=
  match inputs with
  | [] => throw (Error "FaceRecognizer.constructor - expected atleast one input")
  | _ => ret inputs
  end.

(** [api.post(url, body)] and [axios.post(url, body, ...)]: the request
    leaves, and the promise resolves with [response.data] or rejects. *)
Definition api_post (env : Env) (r : Request) : M AttendanceRecord :=
  emit (post r) ;;
  match http_post env r with
  | Some data => ret data
  | None => throw (Error "Request failed")
  end.

Definition stopTrack (t : Track) : Track :=
  mkTrack (track_id t) (S (stop_calls t)).

(** [if (webcamRef.current && webcamRef.current.video.srcObject)
      srcObject.getTracks().forEach((track) => track.stop())] *)
Definition stopTracks : M unit :=
  w <- get ;;
  match webcamRef w with
  | Some video =>
      match srcObject video with
      | Some tracks =>
          setWebcamRef
            (Some (mkVideo (readyState video) (Some (map stopTrack tracks))))
      | None => ret tt
      end
  | None => ret tt
  end.

(** [descriptors.filter((d) => d !== null)] *)
Fixpoint filter_not_null {A} (l : list (option A)) : list A :=
  match l with
  | [] => []
  | Some d :: l' => d :: filter_not_null l'
  | None :: l' => filter_not_null l'
  end.

(** The callback of [operators.map] in [loadDescriptors]: every failure
    ends in [return null], inside the callback. The callbacks run
    concurrently and the order of their console messages is not fixed;
    these messages are left out. *)
Definition describe (env : Env) (op : Operator)
  : option LabeledFaceDescriptors.t :=
  match photo env op with
  | photo_error => None
  | photo_no_face => None
  | photo_face d => Some (LabeledFaceDescriptors.mk (_id op) [d])
  end.

(** [startVideo] *)
Definition startVideo (env : Env) : M unit :=
  match userMedia env with
  | Some stream =>
      w <- get ;;
      match webcamRef w with
      | Some video => setWebcamRef (Some (mkVideo (readyState video) (Some stream)))
      | None => ret tt
      end
  | None =>
      emit (console_error "Camera access error:") ;;
      setIsRecognizing false ;;
      emit (alert CameraAccessFailed)
  end.

(** The cleanup of the effect that starts the video: the function that
    the effect returns. *)
Definition cleanup : M unit := stopTracks.

(** ** The notifier: [services/mqttService.js] *)

Module MQTT.

Inductive ClientEvent : Type := on_connect | on_error | on_close | on_offline.

(** [connect()]: [mqtt.connect] gives the client ([Some c]) or throws. *)
Definition connect (made : option nat) : M unit :=
  w <- get ;;
  match made with
  | Some c => setMqttService (mkMQTT (Some c) (connected (mqttService w)))
  | None =>
      emit (console_error "MQTT connection failed:") ;;
      setMqttService (mkMQTT (client (mqttService w)) false)
  end.

(** The four handlers that [connect] installs on the client; without a
    client there is no handler to call. *)
Definition handle (ev : ClientEvent) : M unit :=
  w <- get ;;
  match client (mqttService w) with
  | None => ret tt
  | Some c =>
      match ev with
      | on_connect =>
          emit (console_log "Connected to MQTT broker") ;;
          setMqttService (mkMQTT (Some c) true)
      | on_error =>
          emit (console_error "MQTT connection error:") ;;
          setMqttService (mkMQTT (Some c) false)
      | on_close =>
          emit (console_log "MQTT connection closed") ;;
          setMqttService (mkMQTT (Some c) false)
      | on_offline =>
          emit (console_log "MQTT client offline") ;;
          setMqttService (mkMQTT (Some c) false)
      end
  end.

(** What happens to the service between its construction and a publish. *)
Inductive ServiceEvent : Type :=
| connect_called (made : option nat)
| client_event (ev : ClientEvent).

Definition service_step (w : World) (ev : ServiceEvent) : World :=
  match ev with
  | connect_called made => final (connect made w)
  | client_event e => final (handle e w)
  end.

(** [new MQTTService()] *)
Definition constructed (w : World) : World :=
  final (setMqttService (mkMQTT None false) w).

(** [publishLedStatus(line, ledIndex, status)] *)
Definition publishLedStatus (env : Env) (line_ : string) (ledIndex_ : Z)
    (status_ : string) : M unit :=
  w <- get ;;
  if negb (connected (mqttService w)) then
    emit (console_error "MQTT not connected")
  else
    let topic := ("attendance/" ++ line_ ++ "/led")%string in
    let message := mkLed ledIndex_ status_ in
    match client (mqttService w) with
    | None => throw (TypeError "Cannot read properties of null (reading 'publish')")
    | Some _ =>
        emit (publish topic message) ;;
        if broker_ack env
        then emit (console_log "Published LED status: ")
        else emit (console_error "MQTT publish error:")
    end.

End MQTT.

(** ** The operators modal, shared by the two pages *)

Module UpdateOperatorsModal.

(** [StrWhiteSpaceChar], on one-byte characters: the tab, the line
    terminators and the space. The other white space of JavaScript
    (U+00A0, U+FEFF, the Unicode spaces) has no one-byte form and is not
    stripped here; the LED index field holds the [value] of an option of
    the [<select>], a string of ASCII digits. *)
Definition isWhiteSpace (c : ascii) : bool :=
  let n := nat_of_ascii c in
  (n =? 9) || (n =? 10) || (n =? 11) || (n =? 12) || (n =? 13) || (n =? 32).

Fixpoint trimStart (s : string) : string :=
  match s with
  | String c s' => if isWhiteSpace c then trimStart s' else s
  | EmptyString => s
  end.

Definition digit (c : ascii) : option Z :=
  let n := nat_of_ascii c in
  if (48 <=? n) && (n <=? 57) then Some (Z.of_nat (n - 48)) else None.

(** The value of the longest prefix of decimal digits; [acc] is [None]
    until a digit has been read. The value is the integer itself, where
    JavaScript rounds it to a double: the same number up to 2^53, and
    above it a number that is greater than 20 as well. *)
Fixpoint digits (s : string) (acc : option Z) : option Z :=
  match s with
  | String c s' =>
      match digit c with
      | Some d =>
          digits s' (Some (10 * match acc with Some a => a | None => 0 end + d)%Z)
      | None => acc
      end
  | EmptyString => acc
  end.

(** [parseInt(s, 10)]; [None] is [NaN]. *)
Definition parseInt (s : string) : option Z :=
  match trimStart s with
  | String "-"%char s' => option_map Z.opp (digits s' None)
  | String "+"%char s' => digits s' None
  | s' => digits s' None
  end.

(** [String(idx)], the [value] of an [<option>]. *)
Definition toString (idx : Z) : string :=
  NilZero.string_of_int (Z.to_int idx).

(** [name.split('.').pop()] *)
Fixpoint split_pop (s : string) (last : string) : string :=
  match s with
  | String c s' =>
      if (c =? ".")%char then split_pop s' "" else split_pop s' (last ++ String c "")%string
  | EmptyString => last
  end.

(** [assigned.includes(idx)] *)
Definition includes (assigned : list (option Z)) (idx : Z) : bool :=
  existsb (fun a => match a with Some i => (i =? idx)%Z | None => false end)
    assigned.

(** [getAvailableLedIndexes], with [Array.from({ length: count }, (_, i) => i)]. *)
Definition getAvailableLedIndexes (count : nat) (w : World) : list Z :=
  let assigned := map ledIndex (operators w) in
  let allIndexes := map Z.of_nat (seq 0 count) in
  filter (fun idx => negb (includes assigned idx)) allIndexes.

(** The [value]s of the LED index [<select>]. *)
Definition ledOptions (count : nat) (w : World) : list string :=
  "" :: map toString (getAvailableLedIndexes count w).

(** [onChange] of the LED index [<select>]. *)
Definition onChangeLedIndex (value : string) : M unit :=
  w <- get ;;
  let f := formData w in
  setFormData
    (FormData.mk (FormData.name f) (FormData.employeeId f) (FormData.station f)
       value (FormData.file f)).

(** [onChange] of the three other inputs of the form. *)
Definition onChangeName (value : string) : M unit :=
  w <- get ;;
  let f := formData w in
  setFormData
    (FormData.mk value (FormData.employeeId f) (FormData.station f)
       (FormData.ledIndex f) (FormData.file f)).

Definition onChangeEmployeeId (value : string) : M unit :=
  w <- get ;;
  let f := formData w in
  setFormData
    (FormData.mk (FormData.name f) value (FormData.station f)
       (FormData.ledIndex f) (FormData.file f)).

Definition onChangeStation (value : string) : M unit :=
  w <- get ;;
  let f := formData w in
  setFormData
    (FormData.mk (FormData.name f) (FormData.employeeId f) value
       (FormData.ledIndex f) (FormData.file f)).

(** [handleFileChange]; [picked] is [e.target.files[0]]. *)
Definition handleFileChange (picked : option File) : M unit :=
  match picked with
  | Some file_ =>
      w <- get ;;
      let f := formData w in
      setFormData
        (FormData.mk (FormData.name f) (FormData.employeeId f)
           (FormData.station f) (FormData.ledIndex f) (Some file_)) ;;
      setPreview (Some ("blob:" ++ file_name file_)%string)
  | None => ret tt
  end.

Definition emptyForm : FormData.t := FormData.mk "" "" "" "" None.

Definition isEmpty (s : string) : bool := (s =? "")%string.

(** [handleAddOperator]; [base] is the prefix of the backend URLs. *)
Definition handleAddOperator (base : string) (env : Env) : M unit :=
  w <- get ;;
  let f := formData w in
  match FormData.file f with
  | None => emit (alert FillAllFields)
  | Some file =>
      if isEmpty (FormData.name f) || isEmpty (FormData.employeeId f)
         || isEmpty (FormData.station f) || isEmpty (FormData.ledIndex f)
      then emit (alert FillAllFields)
      else
        match parseInt (FormData.ledIndex f) with
        | None => emit (alert LedIndexOutOfRange)
        | Some ledIndex_ =>
            if (ledIndex_ <? 0)%Z || (20 <? ledIndex_)%Z
            then emit (alert LedIndexOutOfRange)
            else
              try_catch
                (let fileExtension := split_pop (file_name file) "" in
                 let fileName :=
                   ("operator-" ++ uniqueSuffix env ++ "." ++ fileExtension)%string in
                 let imagePath_ := ("/images/" ++ fileName)%string in
                 finalImagePath <-
                   (if negb (production env) then
                      emit (post (mkRequest (base ++ "/upload")%string (uploadBody file))) ;;
                      match upload env file with
                      | Some path => ret path
                      | None => throw (Error "Request failed")
                      end
                    else ret imagePath_) ;;
                 let operatorData :=
                   OperatorData.mk (FormData.name f) (FormData.employeeId f)
                     (FormData.station f) finalImagePath ledIndex_ in
                 emit (post (mkRequest (base ++ "/api/operators/" ++ line env)%string
                               (operatorBody operatorData))) ;;
                 match create_operator env operatorData with
                 | None => throw (Error "Request failed")
                 | Some data =>
                     setOperators (operators w ++ [data]) ;;
                     setShowAddForm false ;;
                     setFormData emptyForm ;;
                     setPreview None ;;
                     emit (alert OperatorAdded)
                 end)
                (fun _ =>
                   emit (console_error "Error adding operator:") ;;
                   emit (alert ErrorAddingOperator))
        end
  end.

(** [handleDeleteOperator] *)
Definition handleDeleteOperator (base : string) (env : Env) (id : string)
  : M unit :=
  w <- get ;;
  try_catch
    (emit (delete (base ++ "/api/operators/" ++ line env ++ "/" ++ id)%string) ;;
     if delete_operator env id
     then setOperators (filter (fun op => negb (_id op =? id)%string) (operators w))
     else throw (Error "Request failed"))
    (fun _ =>
       emit (console_error "Error deleting operator:") ;;
       emit (alert ErrorDeletingOperator)).

End UpdateOperatorsModal.

(** ** [src/components/MainPage.jsx] *)

Module MainPage.

(** [loadDescriptors]: one task per operator, joined by [Promise.all] in
    the order of [operators]. *)
Definition loadDescriptors (env : Env) : M unit :=
  w <- get ;;
  if List.length (operators w) =? 0 then
    setLabeledDescriptors []
  else
    let descriptors := map (describe env) (operators w) in
    let validDescriptors := filter_not_null descriptors in
    setLabeledDescriptors validDescriptors ;;
    if List.length validDescriptors =? 0
    then emit (alert NoValidDescriptors)
    else ret tt.

(** The body of the [try] block of [recognizeFace]. *)
Definition attempt (env : Env)
    (faceMatcher : list LabeledFaceDescriptors.t) : M unit :=
  match frame env with
  | frame_error => throw (Error "detectSingleFace")
  | frame_no_face =>
      emit (alert NoFaceDetected) ;;
      setIsRecognizing false
  | frame_face descriptor =>
      let bestMatch := findBestMatch env faceMatcher descriptor in
      emit (console_log "Recognition time: ") ;;
      if negb (FaceMatch.label bestMatch =? "unknown")%string
         && Qltb (FaceMatch.distance bestMatch) threshold
      then
        w <- get ;;
        match find (fun op => (_id op =? FaceMatch.label bestMatch)%string)
                (operators w) with
        | Some matchedOperator =>
            let attendanceRecord :=
              mkAttendance (_id matchedOperator) (today env) (now env) in
            emit (console_log "Sending attendance record:") ;;
            try_catch
              (response <-
                 api_post env
                   (mkRequest ("/api/attendance/" ++ line env)%string
                      (attendanceBody attendanceRecord)) ;;
               w' <- get ;;
               setAttendance (attendance w' ++ [response]) ;;
               emit (alert (AttendanceMarked matchedOperator
                              (FaceMatch.distance bestMatch))))
              (fun _ =>
                 emit (console_error "Error marking attendance:") ;;
                 emit (alert MarkingFailedTryAgain))
        | None => emit (alert MatchedOperatorNotFound)
        end
      else
        emit (alert NoSuitableOperator)
  end.

(** [recognizeFace] *)
Definition recognizeFace (env : Env) : M unit :=
  w <- get ;;
  if match webcamRef w with
     | None => true
     | Some video => negb (readyState video =? 4)
     end
  then
    emit (alert WebcamNotReady) ;;
    setIsRecognizing false
  else if List.length (labeledDescriptors w) =? 0 then
    emit (alert NoOperatorsWithFaceData) ;;
    setIsRecognizing false
  else
    faceMatcher <- FaceMatcher (labeledDescriptors w) ;;
    emit (console_log "Face matcher initialized with") ;;
    try_finally
      (try_catch
         (attempt env faceMatcher)
         (fun _ =>
            emit (console_error "Error during face recognition:") ;;
            emit (alert RecognitionError)))
      (setIsRecognizing false ;;
       stopTracks).

(** What [handleMarkAttendance] does after [setIsRecognizing(true)]. *)
Definition settle (env : Env) : M unit :=
  try_finally
    (try_catch
       (recognizeFace env)
       (fun _ =>
          emit (console_error "Error marking attendance:") ;;
          emit (alert ErrorMarkingAttendance)))
    (setIsRecognizing false).

(** [handleMarkAttendance] *)
Definition handleMarkAttendance (env : Env) : M unit :=
  setIsRecognizing true ;;
  settle env.

(** [disabled={isRecognizing}] on the button that calls
    [handleMarkAttendance]. *)
Definition disabled (w : World) : bool := isRecognizing w.


(** The operators modal of this page: 21 LED indexes are offered. *)
Definition getAvailableLedIndexes : World -> list Z :=
  UpdateOperatorsModal.getAvailableLedIndexes 21.

Definition ledOptions : World -> list string :=
  UpdateOperatorsModal.ledOptions 21.

Definition handleAddOperator : Env -> M unit :=
  UpdateOperatorsModal.handleAddOperator "".

Definition handleDeleteOperator : Env -> string -> M unit :=
  UpdateOperatorsModal.handleDeleteOperator "".

End MainPage.

(** ** [src/components/MainPage1.jsx] *)

Module MainPage1.

Definition backend : string := "https://op-copy-backend.onrender.com".

(** [loadDescriptors]: the operators of the selected station only. *)
Definition loadDescriptors (env : Env) : M unit :=
  w <- get ;;
  let stationOperators :=
    filter (fun op => (station op =? selectedStation w)%string) (operators w) in
  if List.length stationOperators =? 0 then
    setLabeledDescriptors []
  else
    let descriptors := map (describe env) stationOperators in
    let validDescriptors := filter_not_null descriptors in
    setLabeledDescriptors validDescriptors ;;
    if List.length validDescriptors =? 0
    then emit (alert NoValidDescriptorsInStation)
    else ret tt.

(** [axios.post(`.../api/attendance/${line}/fail`, { station, timestamp })] *)
Definition report_failure (env : Env) : M unit :=
  w <- get ;;
  api_post env
    (mkRequest (backend ++ "/api/attendance/" ++ line env ++ "/fail")%string
       (failBody (selectedStation w) (now env))) ;;
  ret tt.

(** The body of the [try] block of [recognizeFace]. *)
Definition attempt (env : Env)
    (faceMatcher : list LabeledFaceDescriptors.t) : M unit :=
  match frame env with
  | frame_error => throw (Error "detectSingleFace")
  | frame_no_face =>
      emit (alert NoFaceDetected) ;;
      report_failure env ;;
      setIsRecognizing false
  | frame_face descriptor =>
      let bestMatch := findBestMatch env faceMatcher descriptor in
      emit (console_log "Recognition time: ") ;;
      if negb (FaceMatch.label bestMatch =? "unknown")%string
         && Qltb (FaceMatch.distance bestMatch) threshold
      then
        w <- get ;;
        match find (fun op => (_id op =? FaceMatch.label bestMatch)%string)
                (operators w) with
        | Some matchedOperator =>
            let attendanceRecord :=
              mkAttendance (_id matchedOperator) (today env) (now env) in
            emit (console_log "Sending attendance record:") ;;
            try_catch
              (response <-
                 api_post env
                   (mkRequest (backend ++ "/api/attendance/" ++ line env)%string
                      (attendanceBody attendanceRecord)) ;;
               w' <- get ;;
               setAttendance (attendance w' ++ [response]) ;;
               emit (alert (AttendanceMarked matchedOperator
                              (FaceMatch.distance bestMatch))))
              (fun _ =>
                 emit (console_error "Error marking attendance:") ;;
                 emit (alert MarkingFailedTryAgain))
        | None => emit (alert MatchedOperatorNotFound)
        end
      else
        emit (alert NoSuitableOperator) ;;
        report_failure env
  end.

(** [recognizeFace] *)
Definition recognizeFace (env : Env) : M unit :=
  w <- get ;;
  if match webcamRef w with
     | None => true
     | Some video => negb (readyState video =? 4)
     end
  then
    emit (alert WebcamNotReady) ;;
    setIsRecognizing false
  else if List.length (labeledDescriptors w) =? 0 then
    emit (alert NoOperatorsWithFaceData) ;;
    setIsRecognizing false
  else
    faceMatcher <- FaceMatcher (labeledDescriptors w) ;;
    emit (console_log "Face matcher initialized with") ;;
    try_finally
      (try_catch
         (attempt env faceMatcher)
         (fun _ =>
            emit (console_error "Error during face recognition:") ;;
            emit (alert RecognitionError)))
      (setIsRecognizing false ;;
       stopTracks).

(** [mqttService.publishAttendanceChange({ operatorName:
    formattedAttendance.operatorName, ... })]: no binding of
    [formattedAttendance] exists in the module, so evaluating the
    argument throws before anything is called ([MQTTService] has no
    method [publishAttendanceChange] either). *)
Definition publishAttendanceChange : M unit :=
  throw (ReferenceError "formattedAttendance is not defined").

(** What [handleMarkAttendance] does after [setIsRecognizing(true)]. *)
Definition settle (env : Env) : M unit :=
  try_finally
    (try_catch
       (recognizeFace env ;;
        publishAttendanceChange)
       (fun _ =>
          emit (console_error "Error marking attendance:") ;;
          emit (alert ErrorMarkingAttendance)))
    (setIsRecognizing false).

(** [handleMarkAttendance] *)
Definition handleMarkAttendance (env : Env) : M unit :=
  setIsRecognizing true ;;
  settle env.

(** [disabled={isRecognizing || !selectedStation}] *)
Definition disabled (w : World) : bool :=
  isRecognizing w || (selectedStation w =? "")%string.

(** The operators modal of this page: 17 LED indexes are offered. *)
Definition getAvailableLedIndexes : World -> list Z :=
  UpdateOperatorsModal.getAvailableLedIndexes 17.

Definition ledOptions : World -> list string :=
  UpdateOperatorsModal.ledOptions 17.

Definition handleAddOperator : Env -> M unit :=
  UpdateOperatorsModal.handleAddOperator backend.

Definition handleDeleteOperator : Env -> string -> M unit :=
  UpdateOperatorsModal.handleDeleteOperator backend.

End MainPage1.

(** ** The operators modal, open *)

Module Modal.

(** What the user does in the modal. [choose value] picks an entry of the
    LED index [<select>]. *)
Inductive Event : Type :=
| open_form
| type_name (value : string)
| type_employeeId (value : string)
| type_station (value : string)
| pick_file (picked : option File)
| choose (value : string)
| submit (env : Env)
| remove (env : Env) (id : string).

(** [count] is the number of LED indexes the page offers and [base] the
    prefix of its backend URLs. A [<select>] only yields the value of one
    of its options. *)
Definition step (count : nat) (base : string) (w : World) (ev : Event) : World :=
  match ev with
  | open_form => final (setShowAddForm true w)
  | type_name v => final (UpdateOperatorsModal.onChangeName v w)
  | type_employeeId v => final (UpdateOperatorsModal.onChangeEmployeeId v w)
  | type_station v => final (UpdateOperatorsModal.onChangeStation v w)
  | pick_file f => final (UpdateOperatorsModal.handleFileChange f w)
  | choose v =>
      if existsb (String.eqb v) (UpdateOperatorsModal.ledOptions count w)
      then final (UpdateOperatorsModal.onChangeLedIndex v w)
      else w
  | submit env => final (UpdateOperatorsModal.handleAddOperator base env w)
  | remove env id => final (UpdateOperatorsModal.handleDeleteOperator base env id w)
  end.

Definition run (count : nat) (base : string) (w : World) (evs : list Event)
  : World :=
  fold_left (step count base) evs w.

(** The environments of the events. *)
Fixpoint envs (evs : list Event) : list Env :=
  match evs with
  | [] => []
  | submit env :: evs' => env :: envs evs'
  | remove env _ :: evs' => env :: envs evs'
  | _ :: evs' => envs evs'
  end.

End Modal.

(** ** Observations *)

(** The LED indexes assigned to the operators. *)
Definition assignedLeds (ops : list Operator) : list Z :=
  filter_not_null (map ledIndex ops).

(** No LED index is assigned twice, and each is between [0] and [20]. *)
Definition led_ok (ops : list Operator) : Prop :=
  NoDup (assignedLeds ops) /\
  Forall (fun i => (0 <= i <= 20)%Z) (assignedLeds ops).

(** The LED index field of the form is empty or holds an index that the
    [<select>] offers. *)
Definition form_ok (count : nat) (w : World) : Prop :=
  FormData.ledIndex (formData w) = "" \/
  exists idx,
    FormData.ledIndex (formData w) = UpdateOperatorsModal.toString idx /\
    In idx (UpdateOperatorsModal.getAvailableLedIndexes count w).

(** A connected service has a client. *)
Definition service_ok (w : World) : Prop :=
  connected (mqttService w) = true -> client (mqttService w) <> None.

(** The attendance records sent to the backend. *)
Definition writes (effs : list Effect) : list AttendanceRecord :=
  flat_map
    (fun e =>
       match e with
       | post (mkRequest _ (attendanceBody r)) => [r]
       | _ => []
       end) effs.

(** All the requests sent to the backend. *)
Definition requests (effs : list Effect) : list Request :=
  flat_map (fun e => match e with post r => [r] | _ => [] end) effs.

(** The messages handed to the broker. *)
Definition publishes (effs : list Effect) : list (string * LedMessage) :=
  flat_map (fun e => match e with publish t m => [(t, m)] | _ => [] end) effs.

Definition alerts (effs : list Effect) : list Alert :=
  flat_map (fun e => match e with alert a => [a] | _ => [] end) effs.

(** The tracks of the stream attached to the video element. *)
Definition tracks (w : World) : list Track :=
  match webcamRef w with
  | Some video =>
      match srcObject video with
      | Some ts => ts
      | None => []
      end
  | None => []
  end.

(** [webcamRef.current && webcamRef.current.video.readyState === 4] *)
Definition ready (w : World) : bool :=
  match webcamRef w with
  | Some video => readyState video =? 4
  | None => false
  end.

(** ** The camera

    A stream that [getUserMedia] gives is stopped through a reference to
    it, and the page keeps one reference to a stream: [srcObject] of the
    video of [webcamRef.current]. *)

Module Camera.

(** The page, and the tracks of the streams that the page has opened and
    has no reference to any more: a stream that was attached nowhere, one
    that was replaced as [srcObject], one on the video of a [<Webcam>]
    that React has unmounted. No code of the page can call [stop()] on
    these. *)
Record t : Type := mk {
  page : World;
  unreachable : list Track
}.

(** A page that has lost no stream. *)
Definition of_page (w : World) : t := mk w [].

(** [startVideo], with what becomes of the streams: the stream is
    attached to the video, where it replaces the stream that was there;
    when [webcamRef.current] is [null] it is attached nowhere, and the
    local [stream] was the only reference to it. *)
Definition startVideo (env : Env) (c : t) : t :=
  mk (final (startVideo env (page c)))
     (unreachable c ++
      match userMedia env with
      | Some stream =>
          match webcamRef (page c) with
          | Some _ => tracks (page c)
          | None => stream
          end
      | None => []
      end).

(** [recognizeFace], [handleMarkAttendance] and the cleanup reach a
    stream through [webcamRef.current] and assign none. *)
Definition call (m : M unit) (c : t) : t :=
  mk (final (m (page c))) (unreachable c).

(** React unmounts [<Webcam>]: it detaches the ref
    ([webcamRef.current = null]), and with the video goes the reference
    to the stream on it. *)
Definition detach (c : t) : t :=
  mk (final (setWebcamRef None (page c))) (unreachable c ++ tracks (page c)).

(** Closing the modal. React (17 and later) removes the modal in one
    commit, in which it detaches the refs of the elements it removes, and
    runs the cleanups of [useEffect] after that commit: the cleanup reads
    [webcamRef.current] once the ref is detached. *)
Definition teardown (c : t) : t := call cleanup (detach c).

(** No track that the page has opened is live: [stop()] has been called
    on each, reachable or not. *)
Definition released (c : t) : Prop :=
  Forall (fun t => 1 <= stop_calls t) (tracks (page c) ++ unreachable c).

End Camera.

(** The reference photo of [op] gave no descriptor. *)
Definition failed (env : Env) (op : Operator) : bool :=
  match photo env op with
  | photo_face _ => false
  | _ => true
  end.

(** The gallery that [loadDescriptors] builds from the operators [ops]. *)
Definition gallery_of (env : Env) (ops : list Operator)
  : list LabeledFaceDescriptors.t :=
  filter_not_null (map (describe env) ops).

(** The operators that [MainPage1.loadDescriptors] takes: those of the
    selected station. *)
Definition stationOperators (w : World) : list Operator :=
  filter (fun op => (station op =? selectedStation w)%string) (operators w).

(** [gallery] is a gallery of the operators [input], some of them left
    out: one entry per operator whose photo gave a descriptor, labelled
    with the id of that operator, and no label twice when no id is there
    twice. *)
Definition partial_gallery (env : Env) (input : list Operator)
    (gallery : list LabeledFaceDescriptors.t) : Prop :=
  List.length gallery =
    List.length input - List.length (filter (failed env) input) /\
  (forall e, In e gallery ->
     exists op d, In op input /\ photo env op = photo_face d
                  /\ e = LabeledFaceDescriptors.mk (_id op) [d]) /\
  (NoDup (map _id input) -> NoDup (map LabeledFaceDescriptors.label gallery)).

(** The acceptance test of [recognizeFace] on a best match. *)
Definition acceptable (m : FaceMatch.t) : Prop :=
  FaceMatch.label m <> "unknown" /\ (FaceMatch.distance m < 6 # 10)%Q.

(** Every label of the gallery is the id of an operator of the page: the
    gallery is a gallery of these operators. *)
Definition gallery_over_roster (w : World) : Prop :=
  forall e, In e (labeledDescriptors w) ->
    In (LabeledFaceDescriptors.label e) (map _id (operators w)).

(** The attempt accepts the identity [id]: it sends one attendance record,
    for [id]. *)
Definition accepts (effs : list Effect) (id : string) : Prop :=
  map operatorId (writes effs) = [id].

(** The attempt rejects: it sends no attendance record and tells the user
    that no suitable operator was found. *)
Definition rejects (effs : list Effect) : Prop :=
  writes effs = [] /\ In NoSuitableOperator (alerts effs).

(** [l1] is [l2] with some elements left out, the others in the order of
    [l2]. *)
Inductive subsequence {A} : list A -> list A -> Prop :=
| sub_nil : subsequence [] []
| sub_keep x l1 l2 : subsequence l1 l2 -> subsequence (x :: l1) (x :: l2)
| sub_drop x l1 l2 : subsequence l1 l2 -> subsequence l1 (x :: l2).

(** What face-api.js documents of [findBestMatch]: on the descriptors of
    a matcher (there is at least one) the label it answers is 'unknown'
    or the label of one of them. *)
Definition matcher_sound (env : Env) : Prop :=
  forall gallery d,
    gallery <> [] ->
    FaceMatch.label (findBestMatch env gallery d) = "unknown" \/
    In (FaceMatch.label (findBestMatch env gallery d))
       (map LabeledFaceDescriptors.label gallery).

(** The backend stores the LED index it is sent: the operator it answers
    carries the index of the request. *)
Definition echoes (env : Env) : Prop :=
  forall data op,
    create_operator env data = Some op ->
    ledIndex op = Some (OperatorData.ledIndex data).

(** The LED index discipline of an operators modal that offers [count]
    indexes: what the modal does keeps the indexes of the operators
    distinct and between 0 and 20; the [<select>] offers the indexes
    below [count] that no operator has; a field that is not a number from
    0 to 20 is refused before any request; the index of a deleted
    operator is offered again. *)
Definition led_discipline (count : nat) (base : string) : Prop :=
  (forall w evs,
     led_ok (operators w) ->
     FormData.ledIndex (formData w) = "" ->
     Forall echoes (Modal.envs evs) ->
     led_ok (operators (Modal.run count base w evs))) /\
  (forall w idx,
     In idx (UpdateOperatorsModal.getAvailableLedIndexes count w) <->
     (0 <= idx < Z.of_nat count)%Z /\ ~ In idx (assignedLeds (operators w))) /\
  (forall w env,
     ~ (exists i,
          UpdateOperatorsModal.parseInt (FormData.ledIndex (formData w)) = Some i
          /\ (0 <= i <= 20)%Z) ->
     operators (final (UpdateOperatorsModal.handleAddOperator base env w))
       = operators w /\
     requests (effects (UpdateOperatorsModal.handleAddOperator base env w)) = []) /\
  (forall w env op i,
     led_ok (operators w) ->
     In op (operators w) ->
     ledIndex op = Some i ->
     (0 <= i < Z.of_nat count)%Z ->
     delete_operator env (_id op) = true ->
     In i (UpdateOperatorsModal.getAvailableLedIndexes count
             (final (UpdateOperatorsModal.handleDeleteOperator base env (_id op) w)))).

(** ** A small line, used to run the functions above *)

Module Sample.

Definition alice : Operator :=
  mkOperator "A" "Alice" "E1" "Station 1" "/images/a.jpg" (Some 3%Z).

Definition bob : Operator :=
  mkOperator "B" "Bob" "E2" "Station 1" "/images/b.jpg" (Some 5%Z).

Definition descriptor_A : Descriptor := [(1 # 10)%Q; (2 # 10)%Q].

(** A probe at distance 0.3 from Alice's descriptor, and one at 0.8. *)
Definition near : Descriptor := [(1 # 10)%Q; (5 # 10)%Q].

Definition far : Descriptor := [(1 # 10)%Q; (10 # 10)%Q].

(** The distance of the sample: the sum of the differences. *)
Definition manhattan (a b : Descriptor) : Q :=
  fold_left Qplus (map (fun xy => Qabs (fst xy - snd xy)%Q) (combine a b)) 0%Q.

(** A matcher in the manner of [faceapi.FaceMatcher]: the mean distance
    to the descriptors of each label, the first least one, and 'unknown'
    when it is not below the threshold. *)
Definition computeMeanDistance (query : Descriptor) (ds : list Descriptor) : Q :=
  (fold_left Qplus (map (fun d => manhattan d query) ds) 0
   / inject_Z (Z.of_nat (Nat.max 1 (List.length ds))))%Q.

Definition better (best curr : FaceMatch.t) : FaceMatch.t :=
  if Qltb (FaceMatch.distance best) (FaceMatch.distance curr) then best else curr.

Definition nearest (gallery : list LabeledFaceDescriptors.t) (query : Descriptor)
  : FaceMatch.t :=
  match
    map (fun e => FaceMatch.mk (LabeledFaceDescriptors.label e)
                    (computeMeanDistance query (LabeledFaceDescriptors.descriptors e)))
      gallery
  with
  | [] => FaceMatch.mk "unknown" 0
  | m :: ms =>
      let best := fold_left better ms m in
      if Qltb (FaceMatch.distance best) threshold
      then best
      else FaceMatch.mk "unknown" (FaceMatch.distance best)
  end.

(** Alice's photo shows a face, no other photo can be fetched; the frame
    shows a face of descriptor [probe]; the backend accepts every request
    when [online]. *)
Definition env (probe : Descriptor) (online : bool) : Env :=
  mkEnv "L1" "2025-01-01" "2025-01-01T08:00:00.000Z"
    (fun op => if (_id op =? "A")%string then photo_face descriptor_A else photo_error)
    (frame_face probe)
    nearest
    (fun r =>
       if online then
         match body r with
         | attendanceBody a => Some a
         | _ => Some (mkAttendance "" "" "")
         end
       else None)
    (Some [mkTrack 0 0])
    true
    false
    "1735718400000-42"
    (fun _ => Some "/images/operator-1.jpg")
    (fun data =>
       Some (mkOperator "N" (OperatorData.name data) (OperatorData.employeeId data)
               (OperatorData.station data) (OperatorData.imagePath data)
               (Some (OperatorData.ledIndex data))))
    (fun _ => true).

Definition camera : Video := mkVideo 4 (Some [mkTrack 0 0]).

(** The page with Alice and Bob on the line, before the modal opens. *)
Definition page : World :=
  mkWorld [alice; bob] [] [] false "Station 1" false
    UpdateOperatorsModal.emptyForm None (Some camera) (mkMQTT None false).

(** The same page with the gallery built: Alice only. *)
Definition with_gallery : World :=
  final (MainPage.loadDescriptors (env near true) page).

End Sample.

(** ** More sample data *)

Module Examples.

(** The sample line with a frame that shows nobody. *)
Definition no_face : Env :=
  mkEnv "L1" "2025-01-01" "2025-01-01T08:00:00.000Z"
    (photo (Sample.env Sample.near true))
    frame_no_face
    Sample.nearest
    (http_post (Sample.env Sample.near true))
    (Some [mkTrack 0 0]) true false "1735718400000-42"
    (upload (Sample.env Sample.near true))
    (create_operator (Sample.env Sample.near true))
    (fun _ => true).

(** The sample page with Alice in the gallery and Bob alone on the
    roster. *)
Definition stale_gallery : World :=
  mkWorld [Sample.bob] [] (labeledDescriptors Sample.with_gallery) false
    "Station 1" false UpdateOperatorsModal.emptyForm None (Some Sample.camera)
    (mkMQTT None false).

End Examples.

(** ** The stations of the line: [ViewOperatorsModal] of MainPage.jsx

    The same [stations] is computed by [MarkAttendanceModal] of
    MainPage1.jsx for its station [<select>]. *)

Module ViewOperatorsModal.

(** [Set.prototype.add]: a value that is there already is not added. *)
Definition Set_add (seen : list string) (v : string) : list string :=
  if existsb (String.eqb v) seen then seen else seen ++ [v].

(** [[...new Set(values)]]: the values in the order they were first added. *)
Definition Set_of (values : list string) : list string :=
  fold_left Set_add values [].

(** [stations] *)
Definition stations (w : World) : list string :=
  Set_of (map station (operators w)).

(** [filteredOperators], for the station chosen in the modal; the empty
    string is the option 'All Stations'. *)
Definition filteredOperators (selected : string) (w : World) : list Operator :=
  if (selected =? "")%string
  then operators w
  else filter (fun op => (station op =? selected)%string) (operators w).

End ViewOperatorsModal.

(** ** More observations *)

(** The values of [l], each once, in the order in which they first occur
    in [l]: the head, then the first occurrences of the rest without
    it. *)
Fixpoint first_occurrences (l : list string) : list string :=
  match l with
  | [] => []
  | x :: rest =>
      x :: filter (fun y => negb (y =? x)%string) (first_occurrences rest)
  end.

(** [s] holds no dot. *)
Fixpoint dotless (s : string) : bool :=
  match s with
  | EmptyString => true
  | String c s' => negb (c =? ".")%char && dotless s'
  end.

(** The operators that [handleAddOperator] asks the backend to create. *)
Definition operator_requests (effs : list Effect) : list OperatorData.t :=
  flat_map
    (fun e =>
       match e with
       | post (mkRequest _ (operatorBody data)) => [data]
       | _ => []
       end) effs.

(** The [DELETE] requests sent. *)
Definition deletes (effs : list Effect) : list string :=
  flat_map (fun e => match e with delete u => [u] | _ => [] end) effs.

Module Examples2.

(** The add-operator form of the sample page, filled for Nina with the
    LED index 7. *)
Definition nina_form : FormData.t :=
  FormData.mk "Nina" "E3" "Station 2" "7" (Some (mkFile "nina.photo.jpg")).

Definition filled : World :=
  mkWorld [Sample.alice; Sample.bob] [] [] false "Station 1" true nina_form
    (Some "blob:nina.photo.jpg") (Some Sample.camera) (mkMQTT None false).

(** The sample environment in a production build. *)
Definition production_env : Env :=
  mkEnv "L1" "2025-01-01" "2025-01-01T08:00:00.000Z"
    (photo (Sample.env Sample.near true))
    (frame_face Sample.near)
    Sample.nearest
    (http_post (Sample.env Sample.near true))
    (Some [mkTrack 0 0]) true true "1735718400000-42"
    (upload (Sample.env Sample.near true))
    (create_operator (Sample.env Sample.near true))
    (fun _ => true).

(** The sample page with its service connected. *)
Definition connected : World :=
  fold_left MQTT.service_step
    [MQTT.connect_called (Some 1); MQTT.client_event MQTT.on_connect]
    (MQTT.constructed Sample.page).

End Examples2.

(** ** [src/services/api.js] *)

Module Api.

(** A JavaScript object used as a map, and [localStorage]: keys in the
    order in which they were first set. *)
Definition Store : Type := list (string * string).

Definition getItem (key : string) (store : Store) : option string :=
  option_map snd (find (fun kv => (fst kv =? key)%string) store).

Fixpoint setItem (key value : string) (store : Store) : Store :=
  match store with
  | [] => [(key, value)]
  | (k, v) :: rest =>
      if (k =? key)%string then (key, value) :: rest
      else (k, v) :: setItem key value rest
  end.

(** The configuration of a request, as the interceptor sees it;
    [headers] is [None] when the request has none. *)
Record Config : Type := mkConfig {
  url : string;
  headers : option Store
}.

(** The request interceptor of [api]. *)
Definition interceptor (localStorage : Store) (config : Config) : Config :=
  match getItem "token" localStorage with
  | Some token =>
      if (token =? "")%string then config
      else
        mkConfig (url config)
          (Some (setItem "Authorization" ("Bearer " ++ token)%string
                   match headers config with
                   | Some h => h
                   | None => []
                   end))
  | None => config
  end.

(** The value of the [Authorization] header of a request. *)
Definition authorization (config : Config) : option string :=
  match headers config with
  | Some h => getItem "Authorization" h
  | None => None
  end.

End Api.

(** ** Loading the page: [loadModelsAndData] of the two pages *)

Module Loader.

(** The answer of the server to a request it refuses; [data] is [None]
    when the answer has no body, and holds the [message] of the body
    otherwise. *)
Record ErrorResponse : Type := mkErrorResponse {
  status : Z;
  data : option (option string)
}.

(** What a rejected promise carries, as the [catch] blocks read it:
    [response] when the server answered with an error status, [request]
    when a request left and no answer came. *)
Record Failure : Type := mkFailure {
  response : option ErrorResponse;
  request : bool
}.

(** The texts of the error banner of the page. *)
Inductive Banner : Type :=
| no_banner                       (* '' *)
| server_error (status_ : Z) (message : string)
                                  (* `Server error: ${status} - ${message}` *)
| cannot_connect                  (* 'Cannot connect to the server. ...' *)
| unexpected_error.               (* 'An unexpected error occurred while loading data.' *)

(** The state of the page: the state the modals share, [modelsLoaded] and
    [error]. *)
Record Page : Type := mkPage {
  world : World;
  modelsLoaded : bool;
  error : Banner
}.

(** What the awaited calls answer: the three models and the backend of
    TensorFlow ([None]: all loaded), the two [GET] requests ([inr None]
    for operators: a falsy body; for attendance: a body that is no
    array), and which request settles first, which decides the error
    that [Promise.all] rejects with when both fail. *)
Record Answers : Type := mkAnswers {
  models : option Failure;
  operators_answer : Failure + option (list Operator);
  attendance_answer : Failure + option (list AttendanceRecord);
  operators_first : bool
}.

Record Outcome : Type := mkOutcome {
  result : Res unit;
  page : Page;
  effects : list Effect;
  gets : list Api.Config
}.

(** [message || 'Unknown error'] *)
Definition or_unknown (message : option string) : string :=
  match message with
  | Some m => if (m =? "")%string then "Unknown error" else m
  | None => "Unknown error"
  end.

(** The [catch] block. *)
Definition report (f : Failure) (p : Page) (sent : list Api.Config) : Outcome :=
  let logged := [console_error "Error loading models or data:"] in
  match response f with
  | Some r =>
      match data r with
      | None =>
          mkOutcome
            (Throw (TypeError "Cannot read properties of undefined (reading 'message')"))
            p logged sent
      | Some message =>
          mkOutcome (Ret tt)
            (mkPage (world p) (modelsLoaded p)
               (server_error (status r) (or_unknown message)))
            logged sent
      end
  | None =>
      mkOutcome (Ret tt)
        (mkPage (world p) (modelsLoaded p)
           (if request f then cannot_connect else unexpected_error))
        logged sent
  end.

(** The body of [loadModelsAndData], which the two pages share but for
    the two requests [sent]. *)
Definition load (sent : list Api.Config) (a : Answers) (p : Page) : Outcome :=
  match models a with
  | Some f => report f p []
  | None =>
      let p1 := mkPage (world p) true (error p) in
      match operators_answer a, attendance_answer a with
      | inr operators_, inr attendance_ =>
          let w1 :=
            final (setOperators
                     match operators_ with Some ops => ops | None => [] end
                     (world p1)) in
          let w2 :=
            final (setAttendance
                     match attendance_ with Some records => records | None => [] end
                     w1) in
          mkOutcome (Ret tt) (mkPage w2 true (error p1)) [] sent
      | inl f, inr _ => report f p1 sent
      | inr _, inl f => report f p1 sent
      | inl f1, inl f2 => report (if operators_first a then f1 else f2) p1 sent
      end
  end.

(** [MainPage.jsx]: the requests go through [api] and its interceptor;
    [date_] is the day of [new Date().toISOString()]. *)
Definition MainPage_requests (localStorage : Api.Store) (line_ date_ : string)
  : list Api.Config :=
  map (Api.interceptor localStorage)
    [Api.mkConfig ("/api/operators/" ++ line_)%string None;
     Api.mkConfig ("/api/attendance/" ++ line_ ++ "/" ++ date_)%string None].

Definition MainPage_loadModelsAndData (localStorage : Api.Store)
  (line_ date_ : string) : Answers -> Page -> Outcome :=
  load (MainPage_requests localStorage line_ date_).

(** [MainPage1.jsx]: the requests carry the header the page builds
    itself; [`Bearer ${token}`] prints [null] when no token is stored. *)
Definition MainPage1_requests (localStorage : Api.Store) (line_ date_ : string)
  : list Api.Config :=
  let token :=
    match Api.getItem "token" localStorage with
    | Some t => t
    | None => "null"
    end in
  let headers_ := Some [("Authorization", ("Bearer " ++ token)%string)] in
  [Api.mkConfig (MainPage1.backend ++ "/api/operators/" ++ line_)%string headers_;
   Api.mkConfig (MainPage1.backend ++ "/api/attendance/" ++ line_ ++ "/" ++ date_)%string
     headers_].

Definition MainPage1_loadModelsAndData (localStorage : Api.Store)
  (line_ date_ : string) : Answers -> Page -> Outcome :=
  load (MainPage1_requests localStorage line_ date_).

End Loader.

(** ** [src/components/Login.jsx] *)

Module Login.

(** The state of the login page, with [localStorage], the route and the
    calls of [login] of the authentication context. *)
Record State : Type := mkState {
  username : string;
  password : string;
  line : string;
  error : option string;
  localStorage : Api.Store;
  location : string;
  logins : list (string * string)
}.

(** [POST /api/auth/login] as it leaves the interceptor, and its body. *)
Record Submission : Type := mkSubmission {
  config : Api.Config;
  sent_username : string;
  sent_password : string;
  sent_line : string
}.

Record Outcome : Type := mkOutcome {
  result : Res unit;
  state : State;
  sent : list Submission
}.

Definition setError (e : string) (s : State) : State :=
  mkState (username s) (password s) (line s) (Some e) (localStorage s)
    (location s) (logins s).

(** [handleSubmit]; [answer] is what the backend answers: a failure, or
    the token and the line of [response.data]. The call of [login] of the
    authentication context, which is not part of these sources, is
    recorded and taken to return. *)
Definition handleSubmit (answer : Loader.Failure + string * string) (s : State)
  : Outcome :=
  let request :=
    [mkSubmission
       (Api.interceptor (localStorage s) (Api.mkConfig "/api/auth/login" None))
       (username s) (password s) (line s)] in
  match answer with
  | inr (token, line_) =>
      mkOutcome (Ret tt)
        (mkState (username s) (password s) (line s) (error s)
           (Api.setItem "token" token (localStorage s))
           ("/" ++ line s)%string
           (logins s ++ [(token, line_)]))
        request
  | inl f =>
      match Loader.response f with
      | Some r =>
          match Loader.data r with
          | None =>
              mkOutcome
                (Throw (TypeError "Cannot read properties of undefined (reading 'message')"))
                s request
          | Some (Some m) =>
              mkOutcome (Ret tt)
                (setError (if (m =? "")%string then "Server Error" else m) s)
                request
          | Some None => mkOutcome (Ret tt) (setError "Server Error" s) request
          end
      | None => mkOutcome (Ret tt) (setError "Server Error" s) request
      end
  end.

End Login.

Module Examples3.

Definition refused : Loader.Failure :=
  Loader.mkFailure (Some (Loader.mkErrorResponse 401 (Some (Some "Invalid credentials")))) true.

Definition bare_refusal : Loader.Failure :=
  Loader.mkFailure (Some (Loader.mkErrorResponse 502 None)) true.

Definition fresh : Login.State :=
  Login.mkState "nina" "secret" "line1" None [] "/login" [].

Definition start : Loader.Page :=
  Loader.mkPage Sample.page false Loader.no_banner.

Definition all_good : Loader.Answers :=
  Loader.mkAnswers None (inr (Some [Sample.alice])) (inr None) true.

Definition attendance_down : Loader.Answers :=
  Loader.mkAnswers None (inr (Some [Sample.alice])) (inl refused) true.

End Examples3.

(** * Properties *)

(** ** Running the monad *)

Ltac run :=
  unfold bind, try_catch, try_finally, ret, throw, get, emit,
    setOperators, setAttendance, setLabeledDescriptors, setIsRecognizing,
    setSelectedStation, setShowAddForm, setFormData, setPreview,
    setWebcamRef, setMqttService;
  cbn [result final effects app
       operators attendance labeledDescriptors isRecognizing selectedStation
       showAddForm formData preview webcamRef mqttService
       readyState srcObject client connected Nat.eqb negb List.length].

Lemma Qltb_lt (x y : Q) : Qltb x y = true <-> (x < y)%Q.
Proof.
  unfold Qltb, Qlt. apply Z.ltb_lt.
Qed.

Lemma Qltb_ge (x y : Q) : Qltb x y = false <-> (y <= x)%Q.
Proof.
  unfold Qltb, Qle. apply Z.ltb_ge.
Qed.

(** The acceptance test of the code decides [acceptable]. *)
Lemma acceptable_test (m : FaceMatch.t) :
  negb (FaceMatch.label m =? "unknown")%string
  && Qltb (FaceMatch.distance m) threshold = true <-> acceptable m.
Proof.
  unfold acceptable, threshold.
  rewrite andb_true_iff, negb_true_iff, Qltb_lt.
  destruct (String.eqb_spec (FaceMatch.label m) "unknown") as [E | E];
    intuition congruence.
Qed.

Lemma test_true (m : FaceMatch.t) :
  acceptable m ->
  negb (FaceMatch.label m =? "unknown")%string
  && Qltb (FaceMatch.distance m) threshold = true.
Proof.
  apply acceptable_test.
Qed.

Lemma test_false (m : FaceMatch.t) :
  ~ acceptable m ->
  negb (FaceMatch.label m =? "unknown")%string
  && Qltb (FaceMatch.distance m) threshold = false.
Proof.
  intros N. destruct (negb _ && _) eqn:T; [| reflexivity].
  apply acceptable_test in T. contradiction.
Qed.

(** ** The gallery builder *)

Section Gallery.

Variable env : Env.

Lemma gallery_of_cons (op : Operator) (ops : list Operator) :
  gallery_of env (op :: ops) =
  match photo env op with
  | photo_face d => LabeledFaceDescriptors.mk (_id op) [d] :: gallery_of env ops
  | _ => gallery_of env ops
  end.
Proof.
  unfold gallery_of, describe. simpl. destruct (photo env op); reflexivity.
Qed.

Lemma gallery_length (ops : list Operator) :
  List.length (gallery_of env ops) =
  List.length ops - List.length (filter (failed env) ops).
Proof.
  assert (H : List.length (gallery_of env ops)
              + List.length (filter (failed env) ops) = List.length ops).
  { induction ops as [| op ops IH]; [reflexivity |].
    rewrite gallery_of_cons. simpl. unfold failed at 1.
    destruct (photo env op); simpl; lia. }
  lia.
Qed.

Lemma gallery_labels (ops : list Operator) :
  map LabeledFaceDescriptors.label (gallery_of env ops) =
  map _id (filter (fun op => negb (failed env op)) ops).
Proof.
  induction ops as [| op ops IH]; [reflexivity |].
  rewrite gallery_of_cons. simpl. unfold failed at 1.
  destruct (photo env op); simpl; congruence.
Qed.

Lemma gallery_entry (ops : list Operator) (e : LabeledFaceDescriptors.t) :
  In e (gallery_of env ops) <->
  exists op d, In op ops /\ photo env op = photo_face d
               /\ e = LabeledFaceDescriptors.mk (_id op) [d].
Proof.
  induction ops as [| op ops IH].
  - simpl. split; [tauto | intros (? & ? & [] & _)].
  - rewrite gallery_of_cons. split.
    + destruct (photo env op) eqn:P; simpl.
      * intros H. apply IH in H as (o & d & ? & ? & ?). exists o, d. auto.
      * intros H. apply IH in H as (o & d & ? & ? & ?). exists o, d. auto.
      * intros [<- | H].
        -- exists op, d. auto.
        -- apply IH in H as (o & d' & ? & ? & ?). exists o, d'. auto.
    + intros (o & d & [<- | Hin] & P & ->).
      * rewrite P. left. reflexivity.
      * assert (In (LabeledFaceDescriptors.mk (_id o) [d]) (gallery_of env ops))
          by (apply IH; exists o, d; auto).
        destruct (photo env op); simpl; auto.
Qed.

Lemma subsequence_filter {A} (f : A -> bool) (l : list A) :
  subsequence (filter f l) l.
Proof.
  induction l as [| x l IH]; simpl; [constructor |].
  destruct (f x); constructor; assumption.
Qed.

Lemma subsequence_map {A B} (g : A -> B) (l1 l2 : list A) :
  subsequence l1 l2 -> subsequence (map g l1) (map g l2).
Proof.
  induction 1; simpl; constructor; assumption.
Qed.

Lemma subsequence_In {A} (l1 l2 : list A) (x : A) :
  subsequence l1 l2 -> In x l1 -> In x l2.
Proof.
  induction 1; simpl; intuition.
Qed.

Lemma subsequence_NoDup {A} (l1 l2 : list A) :
  subsequence l1 l2 -> NoDup l2 -> NoDup l1.
Proof.
  induction 1; intros N.
  - constructor.
  - inversion N; subst. constructor; auto.
    intros Hin. eauto using subsequence_In.
  - inversion N; subst. auto.
Qed.

Lemma gallery_subsequence (ops : list Operator) :
  subsequence (map LabeledFaceDescriptors.label (gallery_of env ops)) (map _id ops).
Proof.
  rewrite gallery_labels. apply subsequence_map, subsequence_filter.
Qed.

Lemma MainPage_gallery (w : World) :
  labeledDescriptors (final (MainPage.loadDescriptors env w)) =
  gallery_of env (operators w).
Proof.
  unfold MainPage.loadDescriptors, gallery_of. run.
  destruct (operators w) as [| op ops]; [reflexivity |].
  cbn [List.length Nat.eqb]. run.
  destruct (List.length _ =? 0); reflexivity.
Qed.

Lemma MainPage1_gallery (w : World) :
  labeledDescriptors (final (MainPage1.loadDescriptors env w)) =
  gallery_of env (stationOperators w).
Proof.
  unfold MainPage1.loadDescriptors, stationOperators, gallery_of. run.
  destruct (filter _ (operators w)) as [| op ops]; [reflexivity |].
  cbn [List.length Nat.eqb]. run.
  destruct (List.length _ =? 0); reflexivity.
Qed.

Lemma MainPage_loadDescriptors_returns (w : World) :
  result (MainPage.loadDescriptors env w) = Ret tt.
Proof.
  unfold MainPage.loadDescriptors. run.
  destruct (List.length (operators w) =? 0); [reflexivity |]. run.
  destruct (List.length _ =? 0); reflexivity.
Qed.

Lemma MainPage1_loadDescriptors_returns (w : World) :
  result (MainPage1.loadDescriptors env w) = Ret tt.
Proof.
  unfold MainPage1.loadDescriptors. run.
  destruct (List.length (filter _ (operators w)) =? 0); [reflexivity |]. run.
  destruct (List.length _ =? 0); reflexivity.
Qed.

Lemma MainPage_loadDescriptors_silent (w : World) :
  labeledDescriptors (final (MainPage.loadDescriptors env w)) <> [] ->
  effects (MainPage.loadDescriptors env w) = [].
Proof.
  unfold MainPage.loadDescriptors. run.
  destruct (List.length (operators w) =? 0); [reflexivity |]. run.
  destruct (filter_not_null _) as [| e g]; run; intros N;
    [congruence | reflexivity].
Qed.

Lemma MainPage1_loadDescriptors_silent (w : World) :
  labeledDescriptors (final (MainPage1.loadDescriptors env w)) <> [] ->
  effects (MainPage1.loadDescriptors env w) = [].
Proof.
  unfold MainPage1.loadDescriptors. run.
  destruct (List.length (filter _ (operators w)) =? 0); [reflexivity |]. run.
  destruct (filter_not_null _) as [| e g]; run; intros N;
    [congruence | reflexivity].
Qed.

Lemma gallery_partial (ops : list Operator) :
  partial_gallery env ops (gallery_of env ops).
Proof.
  split; [apply gallery_length |]. split.
  - intros e H. apply gallery_entry, H.
  - apply subsequence_NoDup, gallery_subsequence.
Qed.

(** When no photo gives a descriptor the empty gallery is reported with
    an alert, and [loadDescriptors] returns normally. *)
Lemma empty_gallery_reported (w : World) :
  operators w <> [] ->
  forallb (failed env) (operators w) = true ->
  MainPage.loadDescriptors env w =
    mkOutcome (Ret tt) (final (setLabeledDescriptors [] w))
      [alert NoValidDescriptors].
Proof.
  destruct w as [[| op ops] ? ? ? ? ? ? ? ? ?]; cbn [operators];
    intros N F; [congruence |].
  unfold MainPage.loadDescriptors. run.
  assert (E : filter_not_null (map (describe env) (op :: ops)) = []).
  { clear N. induction (op :: ops) as [| o l IH]; [reflexivity |].
    simpl in F. apply andb_true_iff in F as [F1 F2].
    simpl. unfold describe at 1. unfold failed in F1.
    destruct (photo env o); try discriminate; exact (IH F2). }
  rewrite E. reflexivity.
Qed.

End Gallery.

(** C2. Of [n] operators of which [k] give no descriptor (the photo
    cannot be fetched or shows no face), [loadDescriptors] keeps exactly
    [n - k]: it returns normally, and the gallery it sets has one entry
    per remaining operator, labelled with that operator's id and carrying
    the descriptor of its photo; distinct ids give distinct labels. When
    the gallery is not empty nothing is shown to the user. In
    MainPage1.jsx the operators are those of the selected station. *)
Theorem C2_partial_gallery (env : Env) (w : World) :
  (result (MainPage.loadDescriptors env w) = Ret tt /\
   partial_gallery env (operators w)
     (labeledDescriptors (final (MainPage.loadDescriptors env w))) /\
   (labeledDescriptors (final (MainPage.loadDescriptors env w)) <> [] ->
    effects (MainPage.loadDescriptors env w) = [])) /\
  (result (MainPage1.loadDescriptors env w) = Ret tt /\
   partial_gallery env (stationOperators w)
     (labeledDescriptors (final (MainPage1.loadDescriptors env w))) /\
   (labeledDescriptors (final (MainPage1.loadDescriptors env w)) <> [] ->
    effects (MainPage1.loadDescriptors env w) = [])).
Proof.
  split; (split; [| split]).
  - apply MainPage_loadDescriptors_returns.
  - rewrite MainPage_gallery. apply gallery_partial.
  - apply MainPage_loadDescriptors_silent.
  - apply MainPage1_loadDescriptors_returns.
  - rewrite MainPage1_gallery. apply gallery_partial.
  - apply MainPage1_loadDescriptors_silent.
Qed.

(** C2 on the sample line: two operators, Bob's photo cannot be fetched,
    the gallery has the one entry of Alice. *)
Lemma C2_partial_gallery_witness :
  List.length (labeledDescriptors
    (final (MainPage.loadDescriptors (Sample.env Sample.near true) Sample.page))) = 1 /\
  NoDup (map LabeledFaceDescriptors.label (labeledDescriptors
    (final (MainPage.loadDescriptors (Sample.env Sample.near true) Sample.page)))).
Proof.
  destruct (C2_partial_gallery (Sample.env Sample.near true) Sample.page)
    as [(_ & (L & _ & D) & _) _].
  split.
  - exact L.
  - apply D. vm_compute. repeat constructor; simpl; intuition discriminate.
Defined.

(** C10. The gallery keeps the order of the operators: its labels are the
    ids of the operators whose photo gave a descriptor, in the order of
    the operator list, so they form a subsequence of the ids of that
    list. *)
Theorem C10_gallery_keeps_order (env : Env) (w : World) :
  let gallery := labeledDescriptors (final (MainPage.loadDescriptors env w)) in
  let gallery1 := labeledDescriptors (final (MainPage1.loadDescriptors env w)) in
  (map LabeledFaceDescriptors.label gallery =
     map _id (filter (fun op => negb (failed env op)) (operators w)) /\
   subsequence (map LabeledFaceDescriptors.label gallery) (map _id (operators w))) /\
  (map LabeledFaceDescriptors.label gallery1 =
     map _id (filter (fun op => negb (failed env op)) (stationOperators w)) /\
   subsequence (map LabeledFaceDescriptors.label gallery1) (map _id (operators w))).
Proof.
  cbv zeta. rewrite MainPage_gallery, MainPage1_gallery.
  repeat split.
  - apply gallery_labels.
  - apply gallery_subsequence.
  - apply gallery_labels.
  - rewrite gallery_labels. apply subsequence_map.
    unfold stationOperators.
    induction (operators w) as [| op ops IH]; simpl; [constructor |].
    destruct (station op =? selectedStation w)%string; simpl.
    + destruct (failed env op); simpl; constructor; assumption.
    + constructor; assumption.
Qed.

(** ** The recognition attempt *)

(** Case analysis on what the code branches on and the model leaves
    open. *)
Ltac branch :=
  match goal with
  | |- context [match ?x with _ => _ end] =>
      lazymatch x with
      | context [match _ with _ => _ end] => fail
      | _ => destruct x eqn:?
      end
  end.

(** Closes the three equivalences of the acceptance policy once the
    effects are computed; [T] decides [acceptable]. *)
Ltac policy T :=
  split; [| split];
  (let H := fresh "H" in
   split; intros H;
   first [ exact T | reflexivity | eexists; reflexivity | discriminate
         | contradiction | destruct H; discriminate
         | split; [reflexivity | simpl; auto] ]).

Ltac enter :=
  unfold MainPage.recognizeFace, MainPage.attempt,
    MainPage1.recognizeFace, MainPage1.attempt, MainPage1.report_failure,
    FaceMatcher, api_post, stopTracks.

Section Attempt.

Variables (env : Env) (w : World) (d : Descriptor).

Hypothesis Hready : ready w = true.
Hypothesis Hgallery : labeledDescriptors w <> [].
Hypothesis Hframe : frame env = frame_face d.

Local Abbreviation best := (findBestMatch env (labeledDescriptors w) d).

Lemma ready_video :
  exists video, webcamRef w = Some video /\ readyState video = 4.
Proof.
  unfold ready in Hready. destruct (webcamRef w) as [video |]; [| discriminate].
  exists video. split; [reflexivity |]. apply Nat.eqb_eq, Hready.
Qed.

(** With a gallery of the operators of the page, an acceptable best match
    names an operator that [operators.find] finds. *)
Lemma find_matched :
  matcher_sound env -> gallery_over_roster w -> acceptable best ->
  exists op,
    find (fun op => (_id op =? FaceMatch.label best)%string) (operators w) = Some op
    /\ _id op = FaceMatch.label best.
Proof.
  intros S G [U _].
  destruct (S (labeledDescriptors w) d Hgallery) as [E | E]; [contradiction |].
  apply in_map_iff in E as (e & E & Hin). apply G in Hin.
  rewrite E in Hin.
  destruct (find _ (operators w)) as [op |] eqn:F.
  - exists op. split; [reflexivity |].
    apply find_some in F as [_ F]. apply String.eqb_eq, F.
  - apply in_map_iff in Hin as (op & Hop & Hin).
    apply (find_none _ _ F) in Hin. cbv beta in Hin.
    rewrite Hop, String.eqb_refl in Hin. discriminate.
Qed.

Lemma MainPage_policy :
  matcher_sound env -> gallery_over_roster w ->
  let effs := effects (MainPage.recognizeFace env w) in
  (accepts effs (FaceMatch.label best) <-> acceptable best) /\
  ((exists id, accepts effs id) <-> acceptable best) /\
  (rejects effs <-> ~ acceptable best).
Proof.
  intros S G.
  destruct ready_video as (video & Hw & Hr).
  pose proof (find_matched S G) as FM.
  destruct (labeledDescriptors w) as [| e g] eqn:Hl; [congruence |].
  cbv zeta. unfold accepts, rejects. enter. run.
  rewrite Hw, Hr, Hl, Hframe. cbn [Nat.eqb negb List.length]. run.
  destruct (negb _ && _) eqn:T.
  - apply acceptable_test in T.
    destruct (FM T) as (op & F & Hop).
    rewrite F. run.
    repeat (branch; run); cbn; rewrite Hop; policy T.
  - assert (N : ~ acceptable (findBestMatch env (e :: g) d)).
    { intros A. apply acceptable_test in A. congruence. }
    repeat (branch; run); cbn; policy N.
Qed.

Lemma MainPage1_policy :
  matcher_sound env -> gallery_over_roster w ->
  let effs := effects (MainPage1.recognizeFace env w) in
  (accepts effs (FaceMatch.label best) <-> acceptable best) /\
  ((exists id, accepts effs id) <-> acceptable best) /\
  (rejects effs <-> ~ acceptable best).
Proof.
  intros S G.
  destruct ready_video as (video & Hw & Hr).
  pose proof (find_matched S G) as FM.
  destruct (labeledDescriptors w) as [| e g] eqn:Hl; [congruence |].
  cbv zeta. unfold accepts, rejects. enter. run.
  rewrite Hw, Hr, Hl, Hframe. cbn [Nat.eqb negb List.length]. run.
  destruct (negb _ && _) eqn:T.
  - apply acceptable_test in T.
    destruct (FM T) as (op & F & Hop).
    rewrite F. run.
    repeat (branch; run); cbn; rewrite Hop; policy T.
  - assert (N : ~ acceptable (findBestMatch env (e :: g) d)).
    { intros A. apply acceptable_test in A. congruence. }
    repeat (branch; run); cbn; policy N.
Qed.

End Attempt.

Lemma built_gallery_over_roster (env : Env) (w : World) :
  gallery_over_roster (final (MainPage.loadDescriptors env w)) /\
  gallery_over_roster (final (MainPage1.loadDescriptors env w)).
Proof.
  assert (O : operators (final (MainPage.loadDescriptors env w)) = operators w).
  { unfold MainPage.loadDescriptors. run.
    destruct (List.length (operators w) =? 0); [reflexivity |]. run.
    destruct (List.length _ =? 0); reflexivity. }
  assert (O1 : operators (final (MainPage1.loadDescriptors env w)) = operators w).
  { unfold MainPage1.loadDescriptors. run.
    destruct (List.length (filter _ (operators w)) =? 0); [reflexivity |]. run.
    destruct (List.length _ =? 0); reflexivity. }
  unfold gallery_over_roster.
  rewrite O, O1, MainPage_gallery, MainPage1_gallery.
  split; intros e H; apply gallery_entry in H as (op & d & Hin & _ & ->);
    apply (in_map _id); [exact Hin |].
  unfold stationOperators in Hin. apply filter_In in Hin. tauto.
Qed.

(** C1. With the webcam ready, a non-empty gallery of the operators of
    the page and a face in the frame, [recognizeFace] accepts an identity
    (sends its attendance record) exactly when the best match is not
    labelled 'unknown' and its distance is below 0.6, and the identity is
    then the label of the best match; in every other case it rejects,
    whatever the distance. The same holds in MainPage1.jsx. *)
Theorem C1_acceptance_policy (env : Env) (w : World) (d : Descriptor) :
  matcher_sound env ->
  gallery_over_roster w ->
  ready w = true ->
  labeledDescriptors w <> [] ->
  frame env = frame_face d ->
  let best := findBestMatch env (labeledDescriptors w) d in
  let effs := effects (MainPage.recognizeFace env w) in
  let effs1 := effects (MainPage1.recognizeFace env w) in
  ((accepts effs (FaceMatch.label best) <-> acceptable best) /\
   ((exists id, accepts effs id) <-> acceptable best) /\
   (rejects effs <-> ~ acceptable best)) /\
  ((accepts effs1 (FaceMatch.label best) <-> acceptable best) /\
   ((exists id, accepts effs1 id) <-> acceptable best) /\
   (rejects effs1 <-> ~ acceptable best)).
Proof.
  intros S G R N F. split.
  - apply (MainPage_policy R N F S G).
  - apply (MainPage1_policy R N F S G).
Qed.

Lemma better_label (ms : list FaceMatch.t) (m : FaceMatch.t) :
  In (FaceMatch.label (fold_left Sample.better ms m))
     (FaceMatch.label m :: map FaceMatch.label ms).
Proof.
  revert m. induction ms as [| c ms IH]; intros m; [left; reflexivity |].
  assert (B : Sample.better m c = m \/ Sample.better m c = c).
  { unfold Sample.better. destruct (Qltb _ _); auto. }
  cbn [fold_left map].
  destruct (IH (Sample.better m c)) as [E | H].
  - simpl. destruct B as [B | B]; [left | right; left];
      rewrite <- E, B; reflexivity.
  - simpl. auto.
Qed.

Lemma sample_matcher_sound (probe : Descriptor) (online : bool) :
  matcher_sound (Sample.env probe online).
Proof.
  intros [| e g] p N; [congruence |]. simpl. unfold Sample.nearest.
  cbn [map]. cbv zeta.
  destruct (Qltb _ threshold); [| left; reflexivity].
  right.
  match goal with
  | |- context [fold_left Sample.better ?ms ?m] =>
      pose proof (better_label ms m) as H
  end.
  rewrite map_map in H. exact H.
Qed.

(** C1 on the sample line: Alice is the gallery, the probe is at distance
    0.3 from her descriptor, and her attendance is sent. *)
Lemma C1_acceptance_policy_witness :
  accepts
    (effects (MainPage.recognizeFace (Sample.env Sample.near true) Sample.with_gallery))
    "A".
Proof.
  destruct (C1_acceptance_policy
              (env := Sample.env Sample.near true) (w := Sample.with_gallery)
              (d := Sample.near)) as [(H & _) _].
  - apply sample_matcher_sound.
  - intros e [<- | []]. simpl. auto.
  - reflexivity.
  - discriminate.
  - reflexivity.
  - apply H. split; [discriminate | reflexivity].
Defined.

(** ** The whole trigger: [handleMarkAttendance] *)

Ltac enter_handler :=
  unfold MainPage.handleMarkAttendance, MainPage.settle,
    MainPage1.handleMarkAttendance, MainPage1.settle,
    MainPage1.publishAttendanceChange;
  enter.

Section Trigger.

Variables (env : Env) (w : World).

(** *** Without a gallery *)

Lemma no_gallery_recognizeFace :
  labeledDescriptors w = [] ->
  (MainPage.recognizeFace env w =
     mkOutcome (Ret tt) (final (setIsRecognizing false w))
       [alert (if ready w then NoOperatorsWithFaceData else WebcamNotReady)]) /\
  (MainPage1.recognizeFace env w =
     mkOutcome (Ret tt) (final (setIsRecognizing false w))
       [alert (if ready w then NoOperatorsWithFaceData else WebcamNotReady)]).
Proof.
  intros Hl. destruct w as [? ? ? ? ? ? ? ? [video |] ?];
    cbn in Hl; subst; unfold ready; enter; run; cbn;
    [| split; reflexivity].
  destruct (readyState video =? 4); split; reflexivity.
Qed.

(** *** With the webcam ready and a gallery *)

Hypothesis Hready : ready w = true.
Hypothesis Hgallery : labeledDescriptors w <> [].

(** Whatever the frame, the match and the backend answer, each track of
    the stream has [stop()] called once more. *)
Lemma attempt_stops_tracks :
  tracks (final (MainPage.recognizeFace env w)) = map stopTrack (tracks w) /\
  tracks (final (MainPage1.recognizeFace env w)) = map stopTrack (tracks w).
Proof.
  destruct w as [? ? [| e g] ? ? ? ? ? [[rs [ts |]] |] ?];
    cbn in Hready, Hgallery; try discriminate; try congruence;
    apply Nat.eqb_eq in Hready; subst rs;
    unfold tracks; enter; run; cbn [Nat.eqb negb List.length]; run;
    split; repeat (branch; run); reflexivity.
Qed.

Variable d : Descriptor.

Hypothesis Hframe : frame env = frame_face d.

Local Abbreviation best := (findBestMatch env (labeledDescriptors w) d).

(** A rejected attempt: MainPage.jsx sends nothing; MainPage1.jsx sends
    its failure report and nothing else. Neither publishes. *)
Lemma rejected_trigger :
  ~ acceptable best ->
  (requests (effects (MainPage.handleMarkAttendance env w)) = [] /\
   publishes (effects (MainPage.handleMarkAttendance env w)) = [] /\
   attendance (final (MainPage.handleMarkAttendance env w)) = attendance w) /\
  (writes (effects (MainPage1.handleMarkAttendance env w)) = [] /\
   requests (effects (MainPage1.handleMarkAttendance env w)) =
     [mkRequest
        (MainPage1.backend ++ "/api/attendance/" ++ line env ++ "/fail")%string
        (failBody (selectedStation w) (now env))] /\
   publishes (effects (MainPage1.handleMarkAttendance env w)) = [] /\
   attendance (final (MainPage1.handleMarkAttendance env w)) = attendance w).
Proof.
  intros N. apply test_false in N.
  destruct w as [? ? [| e g] ? ? ? ? ? [[rs [ts |]] |] ?];
    cbn in Hready, Hgallery, N; try discriminate; try congruence;
    apply Nat.eqb_eq in Hready; subst rs;
    enter_handler; run; rewrite Hframe; run; rewrite N; run;
    repeat split; repeat (branch; run); reflexivity.
Qed.

Variable op : Operator.

Hypothesis Haccept : acceptable best.
Hypothesis Hfind :
  find (fun op => (_id op =? FaceMatch.label best)%string) (operators w) = Some op.

(** An accepted match: one request, the attendance record of the matched
    operator; a refused request is reported and not sent again; nothing
    is published, and in MainPage1.jsx the call of the notifier throws. *)
Lemma accepted_trigger :
  let record := mkAttendance (_id op) (today env) (now env) in
  let request := mkRequest ("/api/attendance/" ++ line env)%string
                   (attendanceBody record) in
  let request1 := mkRequest (MainPage1.backend ++ "/api/attendance/" ++ line env)%string
                    (attendanceBody record) in
  let o := MainPage.handleMarkAttendance env w in
  let o1 := MainPage1.handleMarkAttendance env w in
  (result o = Ret tt /\
   requests (effects o) = [request] /\
   publishes (effects o) = [] /\
   (http_post env request = None ->
      alerts (effects o) = [MarkingFailedTryAgain] /\
      attendance (final o) = attendance w) /\
   (forall data, http_post env request = Some data ->
      attendance (final o) = attendance w ++ [data])) /\
  (result o1 = Ret tt /\
   requests (effects o1) = [request1] /\
   publishes (effects o1) = [] /\
   In ErrorMarkingAttendance (alerts (effects o1)) /\
   (http_post env request1 = None ->
      alerts (effects o1) = [MarkingFailedTryAgain; ErrorMarkingAttendance] /\
      attendance (final o1) = attendance w) /\
   (forall data, http_post env request1 = Some data ->
      attendance (final o1) = attendance w ++ [data])).
Proof.
  apply test_true in Haccept.
  destruct w as [? ? [| e g] ? ? ? ? ? [[rs [ts |]] |] ?];
    cbn in Hready, Hgallery, Haccept, Hfind; try discriminate; try congruence;
    apply Nat.eqb_eq in Hready; subst rs;
    cbv zeta; enter_handler; run; rewrite Hframe; run;
    rewrite Haccept; run; rewrite Hfind; run;
    repeat split; intros;
    repeat match goal with
           | H : http_post _ _ = _ |- _ => rewrite H; run
           end;
    repeat (branch; run); cbn; auto.
Qed.

End Trigger.

Lemma handler_returns (env : Env) (w : World) :
  result (MainPage.handleMarkAttendance env w) = Ret tt /\
  result (MainPage1.handleMarkAttendance env w) = Ret tt.
Proof.
  unfold MainPage.handleMarkAttendance, MainPage.settle,
    MainPage1.handleMarkAttendance, MainPage1.settle,
    MainPage1.publishAttendanceChange.
  run. split.
  - destruct (MainPage.recognizeFace env _) as [[[] | e] w1 effs1]; reflexivity.
  - destruct (MainPage1.recognizeFace env _) as [[[] | e] w1 effs1]; reflexivity.
Qed.

Lemma not_ready_recognizeFace (env : Env) (w : World) :
  ready w = false ->
  (MainPage.recognizeFace env w =
     mkOutcome (Ret tt) (final (setIsRecognizing false w)) [alert WebcamNotReady]) /\
  (MainPage1.recognizeFace env w =
     mkOutcome (Ret tt) (final (setIsRecognizing false w)) [alert WebcamNotReady]).
Proof.
  intros R. destruct w as [? ? ? ? ? ? ? ? [video |] ?];
    unfold ready in R; cbn in R; enter; run; [| split; reflexivity].
  rewrite R. split; reflexivity.
Qed.

(** C3. Against an empty gallery [recognizeFace] returns normally after
    one alert ('No operators with valid face data for this station.', or
    the webcam alert when the webcam is not ready): whatever the frame
    shows, it sends no request, accepts no identity and leaves the
    attendance list as it was; [handleMarkAttendance] returns normally
    too. The same holds in MainPage1.jsx. *)
Theorem C3_empty_gallery_rejects (env : Env) (w : World) :
  labeledDescriptors w = [] ->
  let o := MainPage.recognizeFace env w in
  let o1 := MainPage1.recognizeFace env w in
  (result o = Ret tt /\
   effects o = [alert (if ready w then NoOperatorsWithFaceData else WebcamNotReady)] /\
   requests (effects o) = [] /\
   (forall id, ~ accepts (effects o) id) /\
   attendance (final o) = attendance w /\
   result (MainPage.handleMarkAttendance env w) = Ret tt) /\
  (result o1 = Ret tt /\
   effects o1 = [alert (if ready w then NoOperatorsWithFaceData else WebcamNotReady)] /\
   requests (effects o1) = [] /\
   (forall id, ~ accepts (effects o1) id) /\
   attendance (final o1) = attendance w /\
   result (MainPage1.handleMarkAttendance env w) = Ret tt).
Proof.
  intros Hl. cbv zeta.
  destruct (no_gallery_recognizeFace env w Hl) as [-> ->].
  destruct (handler_returns env w) as [-> ->].
  unfold accepts. cbn. repeat split; intros; discriminate.
Qed.

(** C3 on the sample line before the gallery is built. *)
Lemma C3_empty_gallery_rejects_witness :
  effects (MainPage.recognizeFace (Sample.env Sample.near true) Sample.page) =
  [alert NoOperatorsWithFaceData].
Proof.
  destruct (C3_empty_gallery_rejects (Sample.env Sample.near true) Sample.page)
    as [(_ & E & _) _].
  - reflexivity.
  - exact E.
Defined.

(** C4, on the code: on an accepted match [handleMarkAttendance] sends
    exactly one request, the attendance record of the matched operator; a
    refused request is reported ('Error marking attendance. Please try
    again.'), is not sent again and leaves the attendance list unchanged.
    No message is published: MainPage.jsx calls no publish, and in
    MainPage1.jsx the call of the notifier throws and ends in the alert
    'Error marking attendance'. *)
Theorem C4_match_writes_once_publishes_nothing
    (env : Env) (w : World) (d : Descriptor) (op : Operator) :
  ready w = true ->
  labeledDescriptors w <> [] ->
  frame env = frame_face d ->
  acceptable (findBestMatch env (labeledDescriptors w) d) ->
  find (fun op => (_id op =? FaceMatch.label
                     (findBestMatch env (labeledDescriptors w) d))%string)
    (operators w) = Some op ->
  let record := mkAttendance (_id op) (today env) (now env) in
  let request := mkRequest ("/api/attendance/" ++ line env)%string
                   (attendanceBody record) in
  let request1 := mkRequest (MainPage1.backend ++ "/api/attendance/" ++ line env)%string
                    (attendanceBody record) in
  let o := MainPage.handleMarkAttendance env w in
  let o1 := MainPage1.handleMarkAttendance env w in
  (result o = Ret tt /\
   requests (effects o) = [request] /\
   publishes (effects o) = [] /\
   (http_post env request = None ->
      alerts (effects o) = [MarkingFailedTryAgain] /\
      attendance (final o) = attendance w) /\
   (forall data, http_post env request = Some data ->
      attendance (final o) = attendance w ++ [data])) /\
  (result o1 = Ret tt /\
   requests (effects o1) = [request1] /\
   publishes (effects o1) = [] /\
   In ErrorMarkingAttendance (alerts (effects o1)) /\
   (http_post env request1 = None ->
      alerts (effects o1) = [MarkingFailedTryAgain; ErrorMarkingAttendance] /\
      attendance (final o1) = attendance w) /\
   (forall data, http_post env request1 = Some data ->
      attendance (final o1) = attendance w ++ [data])).
Proof.
  intros R N F A Hfind. apply accepted_trigger with (d := d); assumption.
Qed.

(** C4 on the sample line: Alice matched at distance 0.3 in MainPage1.jsx,
    her record is sent once and nothing is published. *)
Lemma C4_match_writes_once_publishes_nothing_witness :
  requests (effects (MainPage1.handleMarkAttendance
                       (Sample.env Sample.near true) Sample.with_gallery)) =
    [mkRequest "https://op-copy-backend.onrender.com/api/attendance/L1"
       (attendanceBody (mkAttendance "A" "2025-01-01" "2025-01-01T08:00:00.000Z"))] /\
  publishes (effects (MainPage1.handleMarkAttendance
                        (Sample.env Sample.near true) Sample.with_gallery)) = [].
Proof.
  destruct (@C4_match_writes_once_publishes_nothing
              (Sample.env Sample.near true) Sample.with_gallery
              Sample.near Sample.alice)
    as [_ (_ & Q & P & _)].
  - reflexivity.
  - discriminate.
  - reflexivity.
  - split; [discriminate | reflexivity].
  - reflexivity.
  - split; [exact Q | exact P].
Defined.

(** The sample match in MainPage1.jsx, run: the record is sent and
    accepted, the user is told so, and then told 'Error marking
    attendance'; the broker receives nothing. *)
Lemma MainPage1_sample_match :
  let o := MainPage1.handleMarkAttendance
             (Sample.env Sample.near true) Sample.with_gallery in
  (exists d, alerts (effects o) =
               [AttendanceMarked Sample.alice d; ErrorMarkingAttendance]) /\
  publishes (effects o) = [] /\
  List.length (writes (effects o)) = 1.
Proof.
  repeat split. eexists. reflexivity.
Qed.

(** C5 as stated fails in MainPage1.jsx: a probe at distance 0.8 from
    Alice is rejected, and the rejection is reported to the backend with
    a request. *)
Lemma C5_rejection_reported_counterexample :
  let effs := effects (MainPage1.handleMarkAttendance
                         (Sample.env Sample.far true) Sample.with_gallery) in
  ~ (rejects effs -> requests effs = []).
Proof.
  cbv zeta. intros H.
  assert (R : rejects (effects (MainPage1.handleMarkAttendance
                                  (Sample.env Sample.far true) Sample.with_gallery))).
  { split; [reflexivity | left; reflexivity]. }
  apply H in R. discriminate R.
Qed.

(** C5, amended. On a rejected attempt no attendance record is sent, the
    attendance list is unchanged and nothing is published. MainPage.jsx
    sends no request at all; MainPage1.jsx sends one request, the failure
    report [{ station, timestamp }] to [/api/attendance/:line/fail]. *)
Theorem C5_rejection_writes_no_record (env : Env) (w : World) (d : Descriptor) :
  ready w = true ->
  labeledDescriptors w <> [] ->
  frame env = frame_face d ->
  ~ acceptable (findBestMatch env (labeledDescriptors w) d) ->
  (requests (effects (MainPage.handleMarkAttendance env w)) = [] /\
   publishes (effects (MainPage.handleMarkAttendance env w)) = [] /\
   attendance (final (MainPage.handleMarkAttendance env w)) = attendance w) /\
  (writes (effects (MainPage1.handleMarkAttendance env w)) = [] /\
   requests (effects (MainPage1.handleMarkAttendance env w)) =
     [mkRequest
        (MainPage1.backend ++ "/api/attendance/" ++ line env ++ "/fail")%string
        (failBody (selectedStation w) (now env))] /\
   publishes (effects (MainPage1.handleMarkAttendance env w)) = [] /\
   attendance (final (MainPage1.handleMarkAttendance env w)) = attendance w).
Proof.
  intros R N F A. apply rejected_trigger with (d := d); assumption.
Qed.

(** C5 on the sample line: a probe at distance 0.8 from Alice, in
    MainPage.jsx. *)
Lemma C5_rejection_writes_no_record_witness :
  requests (effects (MainPage.handleMarkAttendance
                       (Sample.env Sample.far true) Sample.with_gallery)) = [].
Proof.
  destruct (@C5_rejection_writes_no_record
              (Sample.env Sample.far true) Sample.with_gallery Sample.far)
    as [(Q & _) _].
  - reflexivity.
  - discriminate.
  - reflexivity.
  - intros [L _]. apply L. reflexivity.
  - exact Q.
Defined.

Lemma stopped_released (ts : list Track) :
  Forall (fun t => 1 <= stop_calls t) (map stopTrack ts).
Proof.
  apply Forall_forall. intros t H.
  apply in_map_iff in H as (t0 & <- & _). simpl. lia.
Qed.

(** The cleanup finds the ref detached: it stops nothing, and the tracks
    that were on the video are out of reach as they were. *)
Lemma teardown_detached (c : Camera.t) :
  Camera.teardown c =
  Camera.mk (final (setWebcamRef None (Camera.page c)))
    (Camera.unreachable c ++ tracks (Camera.page c)).
Proof.
  destruct c as [w u]. reflexivity.
Qed.

Lemma teardown_released (c : Camera.t) :
  Camera.released (Camera.teardown c) <-> Camera.released c.
Proof.
  rewrite teardown_detached. destruct c as [w u].
  unfold Camera.released. cbn [Camera.page Camera.unreachable].
  change (tracks (final (setWebcamRef None w))) with (@nil Track).
  cbn [app]. rewrite !Forall_app. tauto.
Qed.

Lemma early_exit_keeps_camera (env : Env) (w : World) :
  ready w = false \/ labeledDescriptors w = [] ->
  webcamRef (final (MainPage.recognizeFace env w)) = webcamRef w /\
  webcamRef (final (MainPage1.recognizeFace env w)) = webcamRef w.
Proof.
  intros [R | L].
  - destruct (not_ready_recognizeFace env w R) as [-> ->]. split; reflexivity.
  - destruct (no_gallery_recognizeFace env w L) as [-> ->]. split; reflexivity.
Qed.

(** C6, on the code. Once [recognizeFace] has passed its two guards
    (webcam ready, gallery not empty), every way out of it, with or
    without a face, a match or an error, calls [stop()] exactly once on
    every track of the stream on the video, so that no track of a page
    that has lost no stream stays open. The two guards return before the
    [try] and leave the camera as it is. The cleanup that runs when the
    modal closes reads [webcamRef.current] after React has detached it:
    it stops nothing, the tracks of the video go out of reach as they
    are, and the camera is released after the modal is closed exactly
    when it was before. So a track that is live when a guard returns is
    never stopped. The same holds in MainPage1.jsx. *)
Theorem C6_camera_release (env : Env) (c : Camera.t) :
  let w := Camera.page c in
  (ready w = true -> labeledDescriptors w <> [] ->
   tracks (final (MainPage.recognizeFace env w)) = map stopTrack (tracks w) /\
   tracks (final (MainPage1.recognizeFace env w)) = map stopTrack (tracks w) /\
   (Camera.unreachable c = [] ->
    Camera.released (Camera.call (MainPage.recognizeFace env) c) /\
    Camera.released (Camera.call (MainPage1.recognizeFace env) c))) /\
  (ready w = false \/ labeledDescriptors w = [] ->
   webcamRef (final (MainPage.recognizeFace env w)) = webcamRef w /\
   webcamRef (final (MainPage1.recognizeFace env w)) = webcamRef w) /\
  (webcamRef (Camera.page (Camera.teardown c)) = None /\
   Camera.unreachable (Camera.teardown c) = Camera.unreachable c ++ tracks w /\
   (Camera.released (Camera.teardown c) <-> Camera.released c)) /\
  (ready w = false \/ labeledDescriptors w = [] ->
   ~ Camera.released c ->
   ~ Camera.released (Camera.teardown (Camera.call (MainPage.recognizeFace env) c)) /\
   ~ Camera.released (Camera.teardown (Camera.call (MainPage1.recognizeFace env) c))).
Proof.
  cbv zeta. split; [| split; [| split]].
  - intros R N.
    destruct (@attempt_stops_tracks env (Camera.page c) R N) as [T T1].
    split; [exact T |]. split; [exact T1 |].
    intros U. unfold Camera.released, Camera.call.
    cbn [Camera.page Camera.unreachable].
    rewrite U, !app_nil_r, T, T1. split; apply stopped_released.
  - apply early_exit_keeps_camera.
  - split; [rewrite teardown_detached; reflexivity |].
    split; [rewrite teardown_detached; reflexivity |].
    apply teardown_released.
  - intros G L.
    destruct (early_exit_keeps_camera env (Camera.page c) G) as [K K1].
    rewrite !teardown_released. unfold Camera.released, Camera.call in *.
    cbn [Camera.page Camera.unreachable]. unfold tracks in *.
    rewrite K, K1. split; exact L.
Qed.

(** C6 on the sample line: the webcam is ready with one live track and
    the gallery is empty; [recognizeFace] returns at the guard, the modal
    is closed, and the track is still live. *)
Lemma C6_camera_release_witness :
  ~ Camera.released
      (Camera.teardown
         (Camera.call (MainPage.recognizeFace (Sample.env Sample.near true))
            (Camera.of_page Sample.page))).
Proof.
  destruct (C6_camera_release (Sample.env Sample.near true)
              (Camera.of_page Sample.page)) as (_ & _ & _ & L).
  apply L.
  - right. reflexivity.
  - intros H. inversion H as [| t ts B _]; subst. simpl in B. lia.
Defined.

(** ** The notifier *)

Lemma writes_app (l1 l2 : list Effect) :
  writes (l1 ++ l2) = writes l1 ++ writes l2.
Proof.
  apply flat_map_app.
Qed.

Lemma service_step_ok (w : World) (ev : MQTT.ServiceEvent) :
  service_ok w -> service_ok (MQTT.service_step w ev).
Proof.
  unfold service_ok, MQTT.service_step, MQTT.connect, MQTT.handle.
  intros H. destruct ev as [[c |] | e]; run.
  - discriminate.
  - discriminate.
  - destruct (client (mqttService w)) as [c |] eqn:C; run.
    + destruct e; run; discriminate.
    + rewrite C. exact H.
Qed.

(** Whatever has happened to the service since it was constructed, a
    connected service has a client. *)
Lemma service_reachable_ok (evs : list MQTT.ServiceEvent) (w : World) :
  service_ok (fold_left MQTT.service_step evs (MQTT.constructed w)).
Proof.
  assert (G : forall w0, service_ok w0 ->
                service_ok (fold_left MQTT.service_step evs w0)).
  { induction evs as [| ev evs IH]; intros w0 H; [exact H |].
    simpl. apply IH, service_step_ok, H. }
  apply G. unfold service_ok, MQTT.constructed. run. discriminate.
Qed.

(** So [publishLedStatus] returns normally, connected or not. *)
Lemma publishLedStatus_returns
    (env : Env) (w : World) (line_ : string) (ledIndex_ : Z) (status_ : string) :
  service_ok w ->
  result (MQTT.publishLedStatus env line_ ledIndex_ status_ w) = Ret tt.
Proof.
  unfold service_ok, MQTT.publishLedStatus. intros H. run.
  destruct (connected (mqttService w)); run; [| reflexivity].
  destruct (client (mqttService w)); run; [| exfalso; apply H; reflexivity].
  destruct (broker_ack env); reflexivity.
Qed.

(** What a call of [handleMarkAttendance] leaves alone, whatever the
    webcam, the gallery, the frame, the matcher and the backend do. *)
Lemma handler_frame (env : Env) (w : World) :
  let o := MainPage.handleMarkAttendance env w in
  let o1 := MainPage1.handleMarkAttendance env w in
  (result o = Ret tt /\
   isRecognizing (final o) = false /\
   List.length (requests (effects o)) <= 1 /\
   publishes (effects o) = [] /\
   operators (final o) = operators w /\
   mqttService (final o) = mqttService w) /\
  (result o1 = Ret tt /\
   isRecognizing (final o1) = false /\
   List.length (requests (effects o1)) <= 1 /\
   publishes (effects o1) = [] /\
   operators (final o1) = operators w /\
   mqttService (final o1) = mqttService w).
Proof.
  cbv zeta.
  destruct w as [? ? [| e g] ? ? ? ? ? [[rs [ts |]] |] ?];
    enter_handler; run;
    (split; repeat (branch; run); cbn; repeat split; lia).
Qed.

(** The call of the notifier in [handleMarkAttendance] of MainPage1.jsx
    never returns: it follows [recognizeFace] in the [try] block, and the
    two together always throw. *)
Lemma notifier_call_raises (env : Env) (w : World) :
  exists e,
    result ((MainPage1.recognizeFace env ;; MainPage1.publishAttendanceChange) w)
    = Throw e.
Proof.
  unfold MainPage1.publishAttendanceChange. run.
  destruct (MainPage1.recognizeFace env w) as [[[] | e] w1 effs1]; run;
    eexists; reflexivity.
Qed.

Lemma handler_reports_error (env : Env) (w : World) :
  effects (MainPage1.handleMarkAttendance env w) =
  effects (MainPage1.recognizeFace env (final (setIsRecognizing true w))) ++
  [console_error "Error marking attendance:"; alert ErrorMarkingAttendance].
Proof.
  unfold MainPage1.handleMarkAttendance, MainPage1.settle,
    MainPage1.publishAttendanceChange.
  run.
  destruct (MainPage1.recognizeFace env _) as [[[] | e] w1 effs1]; run;
    cbn; rewrite ?app_nil_r; reflexivity.
Qed.

(** C8, on the code. While the service is not connected
    [publishLedStatus] returns normally, whatever the line, the index and
    the status: it logs 'MQTT not connected', hands nothing to the
    broker, sends no request and changes no state. But no page calls it.
    The one call of the notifier in the recognition flow, in
    [handleMarkAttendance] of MainPage1.jsx, raises into the handler in
    every run, connected or not: whatever [recognizeFace] did, the
    handler then logs 'Error marking attendance:' and alerts 'Error
    marking attendance'. The attendance records sent are those of
    [recognizeFace], nothing is published, and the handler itself
    returns. *)
Theorem C8_publish_while_disconnected
    (env : Env) (w : World) (line_ : string) (ledIndex_ : Z) (status_ : string) :
  let o := MQTT.publishLedStatus env line_ ledIndex_ status_ w in
  let h := MainPage1.handleMarkAttendance env w in
  let r := MainPage1.recognizeFace env (final (setIsRecognizing true w)) in
  (connected (mqttService w) = false ->
   result o = Ret tt /\
   final o = w /\
   effects o = [console_error "MQTT not connected"] /\
   publishes (effects o) = [] /\
   requests (effects o) = []) /\
  ((exists e,
      result ((MainPage1.recognizeFace env ;; MainPage1.publishAttendanceChange)
                (final (setIsRecognizing true w))) = Throw e) /\
   effects h =
     effects r ++ [console_error "Error marking attendance:";
                   alert ErrorMarkingAttendance] /\
   In ErrorMarkingAttendance (alerts (effects h)) /\
   writes (effects h) = writes (effects r) /\
   publishes (effects h) = [] /\
   publishes (effects (MainPage.handleMarkAttendance env w)) = [] /\
   result h = Ret tt).
Proof.
  cbv zeta. split.
  - intros C. unfold MQTT.publishLedStatus. run. rewrite C. run. repeat split.
  - destruct (handler_frame env w) as ((_ & _ & _ & P & _) & (R1 & _ & _ & P1 & _)).
    cbv zeta in *. rewrite handler_reports_error in *.
    split; [apply notifier_call_raises |].
    split; [reflexivity |].
    split.
    { unfold alerts. rewrite flat_map_app. apply in_or_app. right. now left. }
    split; [rewrite writes_app; cbn; apply app_nil_r |].
    split; [exact P1 |]. split; [exact P |].
    apply handler_returns.
Qed.

(** C8 on the sample page, whose service was never connected: the
    publish is dropped with its log line, and the matched attempt of
    MainPage1.jsx ends in 'Error marking attendance'. *)
Lemma C8_publish_while_disconnected_witness :
  effects (MQTT.publishLedStatus (Sample.env Sample.near true) "L1" 3 "present"
             Sample.with_gallery) = [console_error "MQTT not connected"] /\
  In ErrorMarkingAttendance
    (alerts (effects (MainPage1.handleMarkAttendance (Sample.env Sample.near true)
                        Sample.with_gallery))).
Proof.
  destruct (@C8_publish_while_disconnected
              (Sample.env Sample.near true) Sample.with_gallery "L1" 3%Z "present")
    as [D (_ & _ & A & _)].
  destruct (D eq_refl) as (_ & _ & E & _).
  split; [exact E | exact A].
Defined.

(** ** One attempt at a time *)



(** The handlers set neither the operators nor the gallery. *)
Lemma settle_keeps_gallery (env : Env) (w : World) :
  operators (final (MainPage.settle env w)) = operators w /\
  labeledDescriptors (final (MainPage.settle env w)) = labeledDescriptors w.
Proof.
  destruct w as [? ? [| e g] ? ? ? ? ? [[rs [ts |]] |] ?];
    unfold MainPage.settle; enter; run;
    repeat (branch; run); split; reflexivity.
Qed.





(** ** LED indexes in the operators modal *)

Import UpdateOperatorsModal.

Lemma includes_In (assigned : list (option Z)) (idx : Z) :
  includes assigned idx = true <-> In (Some idx) assigned.
Proof.
  unfold includes. rewrite existsb_exists. split.
  - intros ([i |] & Hin & E); [| discriminate].
    apply Z.eqb_eq in E. subst. exact Hin.
  - intros Hin. exists (Some idx). split; [exact Hin | apply Z.eqb_refl].
Qed.

Lemma assigned_In (ops : list Operator) (idx : Z) :
  In (Some idx) (map ledIndex ops) <-> In idx (assignedLeds ops).
Proof.
  unfold assignedLeds.
  induction ops as [| op ops IH]; simpl; [tauto |].
  destruct (ledIndex op) as [i |]; simpl; rewrite <- IH; split.
  - intros [E | H]; [left; congruence | right; exact H].
  - intros [E | H]; [left; congruence | right; exact H].
  - intros [E | H]; [discriminate | exact H].
  - intros H. right. exact H.
Qed.

Lemma assignedLeds_app (ops1 ops2 : list Operator) :
  assignedLeds (ops1 ++ ops2) = assignedLeds ops1 ++ assignedLeds ops2.
Proof.
  unfold assignedLeds.
  induction ops1 as [| op ops1 IH]; simpl; [reflexivity |].
  destruct (ledIndex op); simpl; congruence.
Qed.

Lemma assignedLeds_filter (f : Operator -> bool) (ops : list Operator) :
  subsequence (assignedLeds (filter f ops)) (assignedLeds ops).
Proof.
  unfold assignedLeds.
  induction ops as [| op ops IH]; simpl; [constructor |].
  destruct (f op); simpl; destruct (ledIndex op); try constructor; assumption.
Qed.

Lemma subsequence_Forall {A} (P : A -> Prop) (l1 l2 : list A) :
  subsequence l1 l2 -> Forall P l2 -> Forall P l1.
Proof.
  rewrite !Forall_forall. intros S H x Hin.
  apply H. eapply subsequence_In; eassumption.
Qed.

Lemma led_ok_filter (f : Operator -> bool) (ops : list Operator) :
  led_ok ops -> led_ok (filter f ops).
Proof.
  intros [N R]. split.
  - eapply subsequence_NoDup; [apply assignedLeds_filter | exact N].
  - eapply subsequence_Forall; [apply assignedLeds_filter | exact R].
Qed.

Lemma led_ok_add (ops : list Operator) (op : Operator) (i : Z) :
  led_ok ops -> ledIndex op = Some i -> (0 <= i <= 20)%Z ->
  ~ In i (assignedLeds ops) -> led_ok (ops ++ [op]).
Proof.
  intros [N R] E B F. unfold led_ok. rewrite assignedLeds_app.
  unfold assignedLeds at 2 4. simpl. rewrite E. simpl. split.
  - apply NoDup_app. repeat split.
    + exact N.
    + constructor; [simpl; tauto | constructor].
    + intros x Hx [<- | []]. contradiction.
  - apply Forall_app. split; [exact R |]. constructor; [exact B | constructor].
Qed.

(** The indexes offered are the indexes below [count] that no operator
    has. *)
Lemma available_iff (count : nat) (w : World) (idx : Z) :
  In idx (getAvailableLedIndexes count w) <->
  (0 <= idx < Z.of_nat count)%Z /\ ~ In idx (assignedLeds (operators w)).
Proof.
  unfold getAvailableLedIndexes.
  rewrite filter_In, negb_true_iff, in_map_iff, <- assigned_In, <- includes_In.
  split.
  - intros [(n & <- & Hn) F]. apply in_seq in Hn. split; [lia | congruence].
  - intros [B F]. split.
    + exists (Z.to_nat idx). split; [lia |]. apply in_seq. lia.
    + destruct (includes _ idx); [exfalso; auto | reflexivity].
Qed.

(** [parseInt] reads back the value of every option of the [<select>]. *)
Lemma parse_toString (idx : Z) :
  (0 <= idx <= 20)%Z ->
  parseInt (toString idx) = Some idx /\ isEmpty (toString idx) = false.
Proof.
  intros B.
  assert (C : forallb
                (fun i => match parseInt (toString i) with
                          | Some j => (j =? i)%Z
                          | None => false
                          end && negb (isEmpty (toString i)))
                (map Z.of_nat (seq 0 21)) = true) by (vm_compute; reflexivity).
  rewrite forallb_forall in C.
  specialize (C idx). rewrite andb_true_iff, negb_true_iff in C.
  destruct C as [P E].
  { apply in_map_iff. exists (Z.to_nat idx). split; [lia |]. apply in_seq. lia. }
  split; [| exact E].
  destruct (parseInt (toString idx)) as [j |]; [| discriminate].
  apply Z.eqb_eq in P. congruence.
Qed.

Section Leds.

Variables (count : nat) (base : string).

Hypothesis Hcount : count <= 21.

(** [handleAddOperator] leaves the operators and the form as they are, or
    appends the operator that the backend made from a filled form whose
    LED index parses to a number from 0 to 20, and clears the form. *)
Lemma add_cases (env : Env) (w : World) :
  let o := handleAddOperator base env w in
  (operators (final o) = operators w /\ formData (final o) = formData w) \/
  (exists i od data,
     parseInt (FormData.ledIndex (formData w)) = Some i /\
     isEmpty (FormData.ledIndex (formData w)) = false /\
     (0 <= i <= 20)%Z /\
     OperatorData.ledIndex od = i /\
     create_operator env od = Some data /\
     operators (final o) = operators w ++ [data] /\
     formData (final o) = emptyForm).
Proof.
  cbv zeta. unfold handleAddOperator. run.
  destruct (FormData.file (formData w)) as [file |]; run; [| left; split; reflexivity].
  destruct (isEmpty (FormData.name (formData w)) || _ || _ || _) eqn:E; run;
    [left; split; reflexivity |].
  destruct (parseInt (FormData.ledIndex (formData w))) as [i |] eqn:P; run;
    [| left; split; reflexivity].
  destruct ((i <? 0)%Z || (20 <? i)%Z) eqn:B; run; [left; split; reflexivity |].
  apply orb_false_iff in E as [_ E], B as [B1 B2].
  apply Z.ltb_ge in B1, B2.
  destruct (production env); run.
  - destruct (create_operator env _) as [data |] eqn:C; run;
      [| left; split; reflexivity].
    right. eexists i, _, data. repeat split; try eassumption; reflexivity.
  - destruct (upload env file) as [path |]; run; [| left; split; reflexivity].
    destruct (create_operator env _) as [data |] eqn:C; run;
      [| left; split; reflexivity].
    right. eexists i, _, data. repeat split; try eassumption; reflexivity.
Qed.

(** A LED index field that does not parse to a number from 0 to 20 stops
    [handleAddOperator] before any request. *)
Lemma add_rejects (env : Env) (w : World) :
  ~ (exists i, parseInt (FormData.ledIndex (formData w)) = Some i
               /\ (0 <= i <= 20)%Z) ->
  operators (final (handleAddOperator base env w)) = operators w /\
  requests (effects (handleAddOperator base env w)) = [].
Proof.
  clear Hcount. intros N. unfold handleAddOperator. run.
  destruct (FormData.file (formData w)) as [file |]; run; [| split; reflexivity].
  destruct (isEmpty (FormData.name (formData w)) || _ || _ || _); run;
    [split; reflexivity |].
  destruct (parseInt (FormData.ledIndex (formData w))) as [i |] eqn:P; run;
    [| split; reflexivity].
  destruct ((i <? 0)%Z || (20 <? i)%Z) eqn:B; run; [split; reflexivity |].
  apply orb_false_iff in B as [B1 B2]. apply Z.ltb_ge in B1, B2.
  exfalso. apply N. exists i. split; [reflexivity | lia].
Qed.

Lemma delete_cases (env : Env) (id : string) (w : World) :
  let o := handleDeleteOperator base env id w in
  formData (final o) = formData w /\
  operators (final o) =
    if delete_operator env id
    then filter (fun op => negb (_id op =? id)%string) (operators w)
    else operators w.
Proof.
  cbv zeta. unfold handleDeleteOperator. run.
  destruct (delete_operator env id); run; split; reflexivity.
Qed.

Lemma available_ext (w1 w2 : World) :
  operators w1 = operators w2 ->
  getAvailableLedIndexes count w1 = getAvailableLedIndexes count w2.
Proof.
  unfold getAvailableLedIndexes. intros ->. reflexivity.
Qed.

Lemma form_ok_ext (w1 w2 : World) :
  operators w1 = operators w2 ->
  FormData.ledIndex (formData w1) = FormData.ledIndex (formData w2) ->
  form_ok count w2 -> form_ok count w1.
Proof.
  unfold form_ok. intros O F. rewrite F, (available_ext _ _ O). tauto.
Qed.

Lemma step_led_ok (w : World) (ev : Modal.Event) :
  Forall echoes (Modal.envs [ev]) ->
  led_ok (operators w) /\ form_ok count w ->
  led_ok (operators (Modal.step count base w ev))
  /\ form_ok count (Modal.step count base w ev).
Proof.
  intros Hecho [L F].
  destruct ev as [| v | v | v | picked | v | env | env id]; cbn [Modal.step].
  - split; [exact L | eapply form_ok_ext; [| | exact F]; reflexivity].
  - split; [exact L | eapply form_ok_ext; [| | exact F]; reflexivity].
  - split; [exact L | eapply form_ok_ext; [| | exact F]; reflexivity].
  - split; [exact L | eapply form_ok_ext; [| | exact F]; reflexivity].
  - destruct picked;
      (split; [exact L | eapply form_ok_ext; [| | exact F]; reflexivity]).
  - destruct (existsb _ _) eqn:E; [| split; assumption].
    split; [exact L |].
    apply existsb_exists in E as (x & Hin & E). apply String.eqb_eq in E. subst x.
    destruct Hin as [<- | Hin]; [left; reflexivity |].
    apply in_map_iff in Hin as (idx & <- & Hin).
    right. exists idx. split; [reflexivity | exact Hin].
  - inversion Hecho as [| ? ? Hec _]; subst.
    destruct (add_cases env w) as [[O E] | (i & od & data & P & NE & B & Hod & C & O & E)].
    + split; [rewrite O; exact L |].
      eapply form_ok_ext; [exact O | rewrite E; reflexivity | exact F].
    + split; [| left; rewrite E; reflexivity].
      rewrite O.
      destruct F as [F | (idx & F & Hin)].
      { rewrite F in NE. discriminate. }
      apply available_iff in Hin as [R Hin].
      destruct (@parse_toString idx) as [P' _]; [lia |].
      rewrite F, P' in P. injection P as ->.
      apply led_ok_add with (i := i); try assumption.
      rewrite (Hec _ _ C). congruence.
  - destruct (delete_cases env id w) as [E O].
    assert (O' : operators (final (handleDeleteOperator base env id w)) =
                 filter (fun op => if delete_operator env id
                                   then negb (_id op =? id)%string else true)
                   (operators w)).
    { rewrite O. destruct (delete_operator env id); [reflexivity |].
      symmetry. apply forallb_filter_id. apply forallb_forall. reflexivity. }
    split; [rewrite O'; apply led_ok_filter, L |].
    destruct F as [F | (idx & F & Hin)]; [left; congruence |].
    right. exists idx. split; [congruence |].
    apply available_iff in Hin as [R Hin]. apply available_iff.
    split; [exact R |]. rewrite O'. intros Hin'. apply Hin.
    eapply subsequence_In; [apply assignedLeds_filter | exact Hin'].
Qed.

Lemma envs_cons (ev : Modal.Event) (evs : list Modal.Event) :
  Modal.envs (ev :: evs) = Modal.envs [ev] ++ Modal.envs evs.
Proof.
  destruct ev; reflexivity.
Qed.

Lemma run_led_ok (evs : list Modal.Event) (w : World) :
  Forall echoes (Modal.envs evs) ->
  led_ok (operators w) /\ form_ok count w ->
  led_ok (operators (Modal.run count base w evs))
  /\ form_ok count (Modal.run count base w evs).
Proof.
  revert w. induction evs as [| ev evs IH]; intros w Hecho H; [exact H |].
  rewrite envs_cons in Hecho. apply Forall_app in Hecho as [H1 H2].
  apply (IH _ H2). apply step_led_ok; assumption.
Qed.

(** Once an operator is deleted no operator has its LED index. *)
Lemma delete_frees (ops : list Operator) (op : Operator) (i : Z) :
  NoDup (assignedLeds ops) -> In op ops -> ledIndex op = Some i ->
  ~ In i (assignedLeds
            (filter (fun o => negb (_id o =? _id op)%string) ops)).
Proof.
  unfold assignedLeds.
  induction ops as [| o ops IH]; intros N Hin E; [destruct Hin |].
  simpl in N. destruct Hin as [-> | Hin].
  - rewrite E in N. inversion N as [| ? ? Hn N']; subst.
    simpl. rewrite String.eqb_refl. simpl.
    intros H. apply Hn.
    eapply subsequence_In;
      [apply (assignedLeds_filter (fun o => negb (_id o =? _id op)%string) ops)
      | exact H].
  - simpl. destruct (ledIndex o) as [j |] eqn:Ej.
    + inversion N as [| ? ? Hn N']; subst.
      destruct (negb (_id o =? _id op)%string); simpl; [rewrite Ej; simpl |].
      * intros [-> | H]; [| exact (IH N' Hin E H)].
        apply Hn. apply assigned_In. apply in_map_iff. exists op. auto.
      * exact (IH N' Hin E).
    + destruct (negb (_id o =? _id op)%string); simpl; [rewrite Ej |];
        exact (IH N Hin E).
Qed.

End Leds.

Lemma leds_disciplined (count : nat) (base : string) :
  count <= 21 -> led_discipline count base.
Proof.
  intros Hcount. split; [| split; [| split]].
  - intros w evs L F Hecho.
    apply (@run_led_ok count base Hcount evs w Hecho).
    split; [exact L | left; exact F].
  - intros w idx. exact (@available_iff count w idx).
  - intros w env. apply add_rejects.
  - intros w env op i [N _] Hin E R D.
    apply (@available_iff count). split; [exact R |].
    destruct (@delete_cases base env (_id op) w) as [_ ->]. rewrite D.
    apply delete_frees; assumption.
Qed.

(** C9. In the operators modal of both pages the LED indexes of the
    operators stay distinct and between 0 and 20 through everything the
    modal does, when they are so at the start and the backend stores the
    index it is sent: [handleAddOperator] refuses, before any request, a
    field that is not a number from 0 to 20; the [<select>] offers
    exactly the indexes (21 in MainPage.jsx, 17 in MainPage1.jsx) that no
    operator has; and after [handleDeleteOperator] the index of the
    deleted operator is offered again. *)
Theorem C9_led_index_unique_and_bounded :
  led_discipline 21 "" /\ led_discipline 17 MainPage1.backend.
Proof.
  split; apply leds_disciplined; lia.
Qed.

(** C9 on the sample line: index 7 is chosen and Nina is added with it,
    then Alice is deleted; the indexes are 5 and 7, and 3 is offered
    again. *)
Lemma C9_led_index_unique_and_bounded_witness :
  let env := Sample.env Sample.near true in
  let w := Modal.run 21 "" Sample.page
             [Modal.open_form; Modal.type_name "Nina";
              Modal.type_employeeId "E3"; Modal.type_station "Station 2";
              Modal.pick_file (Some (mkFile "nina.jpg")); Modal.choose "7";
              Modal.submit env; Modal.remove env "A"] in
  led_ok (operators w) /\ In 3%Z (MainPage.getAvailableLedIndexes w).
Proof.
  cbv zeta. destruct C9_led_index_unique_and_bounded as [(A & B & _) _].
  split.
  - apply A.
    + split; [repeat constructor; simpl; intuition discriminate
             | repeat constructor; lia].
    + reflexivity.
    + repeat constructor; intros data op E; injection E as <-; reflexivity.
  - apply (B _ 3%Z). split; [lia |]. vm_compute. intuition discriminate.
Defined.

(** * Further properties of the code *)

(** ** The trigger as a whole *)

Lemma snoc_neq {A} (l : list A) (x : A) : l ++ [x] <> l.
Proof.
  intros E. apply (f_equal (@List.length A)) in E.
  rewrite length_app in E. simpl in E. lia.
Qed.


(** X2. The attendance list of the page grows exactly when the success
    alert is shown: [handleMarkAttendance] either leaves the list as it
    was, or appends the one record the backend answered to the one request
    it sent; and the alert 'Attendance marked successfully ...' is among
    its alerts if and only if the list changed. The same holds in
    MainPage1.jsx. *)
Theorem X2_list_grows_with_success_alert (env : Env) (w : World) :
  let grows (o : Outcome unit) :=
    (attendance (final o) = attendance w \/
     exists r data,
       requests (effects o) = [r] /\ http_post env r = Some data /\
       attendance (final o) = attendance w ++ [data]) /\
    ((exists op d, In (AttendanceMarked op d) (alerts (effects o))) <->
     attendance (final o) <> attendance w) in
  grows (MainPage.handleMarkAttendance env w) /\
  grows (MainPage1.handleMarkAttendance env w).
Proof.
  cbv zeta.
  destruct w as [? att [| e g] ? ? ? ? ? [[rs [ts |]] |] ?];
    enter_handler; run;
    (split; repeat (branch; run); cbn;
     (split;
      [ first [ left; reflexivity
              | right; eexists _, _; repeat split; eassumption ]
      | split;
        [ intros (op_ & dist_ & H); try apply snoc_neq;
          repeat (destruct H as [H | H]; try discriminate H); try contradiction
        | intros H; try (exfalso; apply H; reflexivity);
          eexists _, _; left; reflexivity ] ])).
Qed.

(** X3. When the frame shows no face, [recognizeFace] (webcam ready,
    gallery not empty) alerts 'No face detected in webcam feed.' and sends
    no attendance record; MainPage.jsx sends no request, MainPage1.jsx
    reports the failure with one request to [/api/attendance/:line/fail],
    and when that request is refused adds the alert 'An error occurred
    during face recognition.'. When the detection itself throws, both
    pages show that alert alone and send nothing. Neither case lets an
    exception out. *)
Theorem X3_no_face_and_detection_error (env : Env) (w : World) :
  ready w = true ->
  labeledDescriptors w <> [] ->
  let o := MainPage.recognizeFace env w in
  let o1 := MainPage1.recognizeFace env w in
  let report :=
    mkRequest (MainPage1.backend ++ "/api/attendance/" ++ line env ++ "/fail")%string
      (failBody (selectedStation w) (now env)) in
  (frame env = frame_no_face ->
   result o = Ret tt /\ alerts (effects o) = [NoFaceDetected] /\
   requests (effects o) = [] /\
   result o1 = Ret tt /\ requests (effects o1) = [report] /\
   alerts (effects o1) =
     NoFaceDetected ::
     match http_post env report with
     | Some _ => []
     | None => [RecognitionError]
     end) /\
  (frame env = frame_error ->
   result o = Ret tt /\ alerts (effects o) = [RecognitionError] /\
   requests (effects o) = [] /\
   result o1 = Ret tt /\ alerts (effects o1) = [RecognitionError] /\
   requests (effects o1) = []).
Proof.
  intros R N.
  destruct w as [? ? [| e g] ? ? ? ? ? [[rs [ts |]] |] ?];
    cbn in R, N; try discriminate; try congruence;
    apply Nat.eqb_eq in R; subst rs;
    cbv zeta; enter; run;
    (split; intros F; rewrite F; run;
     repeat (branch; run); cbn; repeat split).
Qed.

(** X3 on the sample line, with a frame that shows nobody. *)
Lemma X3_no_face_and_detection_error_witness :
  let env := Examples.no_face in
  alerts (effects (MainPage.recognizeFace env Sample.with_gallery)) = [NoFaceDetected]
  /\ List.length (requests (effects (MainPage1.recognizeFace env Sample.with_gallery))) = 1.
Proof.
  cbv zeta.
  destruct (@X3_no_face_and_detection_error Examples.no_face Sample.with_gallery)
    as [H _]; [reflexivity | discriminate |].
  destruct H as (_ & A & _ & _ & Q & _); [reflexivity |].
  split; [exact A | rewrite Q; reflexivity].
Defined.

(** X4. An acceptable best match whose label is the id of no operator of
    the page is not recorded: [recognizeFace] of both pages alerts
    'Matched operator not found.', sends no request and leaves the
    attendance list as it was. *)
Theorem X4_matched_operator_not_found (env : Env) (w : World) (d : Descriptor) :
  ready w = true ->
  labeledDescriptors w <> [] ->
  frame env = frame_face d ->
  acceptable (findBestMatch env (labeledDescriptors w) d) ->
  (forall op, In op (operators w) ->
     _id op <> FaceMatch.label (findBestMatch env (labeledDescriptors w) d)) ->
  let o := MainPage.recognizeFace env w in
  let o1 := MainPage1.recognizeFace env w in
  (result o = Ret tt /\ alerts (effects o) = [MatchedOperatorNotFound] /\
   requests (effects o) = [] /\ attendance (final o) = attendance w) /\
  (result o1 = Ret tt /\ alerts (effects o1) = [MatchedOperatorNotFound] /\
   requests (effects o1) = [] /\ attendance (final o1) = attendance w).
Proof.
  intros R N F A U.
  assert (Fd : find (fun op => (_id op =? FaceMatch.label
                 (findBestMatch env (labeledDescriptors w) d))%string)
                 (operators w) = None).
  { destruct (find _ (operators w)) as [op |] eqn:E; [| reflexivity].
    apply find_some in E as [Hin E]. apply String.eqb_eq in E.
    exfalso. exact (U op Hin E). }
  apply test_true in A.
  destruct w as [? ? [| e g] ? ? ? ? ? [[rs [ts |]] |] ?];
    cbn in R, N, A, Fd; try discriminate; try congruence;
    apply Nat.eqb_eq in R; subst rs;
    cbv zeta; enter; run; rewrite F; run; rewrite A; run; rewrite Fd; run;
    repeat split.
Qed.

(** X4 on a page whose gallery still holds Alice after she left the
    roster. *)
Lemma X4_matched_operator_not_found_witness :
  alerts (effects (MainPage.recognizeFace (Sample.env Sample.near true)
                     Examples.stale_gallery)) = [MatchedOperatorNotFound].
Proof.
  destruct (@X4_matched_operator_not_found
              (Sample.env Sample.near true) Examples.stale_gallery Sample.near)
    as [(_ & A & _) _].
  - reflexivity.
  - discriminate.
  - reflexivity.
  - split; [discriminate | reflexivity].
  - intros op [<- | []]. discriminate.
  - exact A.
Defined.

(** ** Stations *)

Import ViewOperatorsModal.

Lemma Set_add_spec (seen : list string) (v : string) :
  exists more,
    Set_add seen v = seen ++ more /\ subsequence more [v] /\
    (forall x, In x (Set_add seen v) <-> In x seen \/ x = v) /\
    (NoDup seen -> NoDup (Set_add seen v)).
Proof.
  unfold Set_add. destruct (existsb (String.eqb v) seen) eqn:E.
  - exists []. rewrite app_nil_r. repeat split; try tauto.
    + repeat constructor.
    + intros [H | ->]; [exact H |].
      apply existsb_exists in E as (y & Hy & E).
      apply String.eqb_eq in E. subst. exact Hy.
  - exists [v]. repeat split.
    + repeat constructor.
    + rewrite in_app_iff. simpl. intuition.
    + rewrite in_app_iff. simpl. intuition.
    + intros N. apply NoDup_app. repeat split.
      * exact N.
      * constructor; [simpl; tauto | constructor].
      * intros x Hx [<- | []].
        assert (C : existsb (String.eqb v) seen = true).
        { apply existsb_exists. exists v. split; [exact Hx | apply String.eqb_refl]. }
        congruence.
Qed.

Lemma subsequence_app {A} (a1 a2 b1 b2 : list A) :
  subsequence a1 a2 -> subsequence b1 b2 -> subsequence (a1 ++ b1) (a2 ++ b2).
Proof.
  induction 1; intros Hb; simpl; try constructor; auto.
Qed.

Lemma Set_fold_spec (values seen : list string) :
  exists more,
    fold_left Set_add values seen = seen ++ more /\ subsequence more values /\
    (forall x, In x (fold_left Set_add values seen) <-> In x seen \/ In x values) /\
    (NoDup seen -> NoDup (fold_left Set_add values seen)).
Proof.
  revert seen. induction values as [| v values IH]; intros seen.
  - exists []. simpl. rewrite app_nil_r. repeat split; try tauto. constructor.
  - simpl.
    destruct (Set_add_spec seen v) as (m1 & E1 & S1 & I1 & N1).
    destruct (IH (Set_add seen v)) as (m2 & E2 & S2 & I2 & N2).
    exists (m1 ++ m2). repeat split.
    + rewrite E2, E1, app_assoc. reflexivity.
    + apply (subsequence_app S1 S2).
    + intros H. apply I2 in H as [H | H]; [apply I1 in H |]; intuition.
    + intros [H | [<- | H]]; apply I2.
      * left. apply I1. auto.
      * left. apply I1. auto.
      * right. exact H.
    + intros N. apply N2, N1, N.
Qed.

Lemma stations_spec (w : World) :
  NoDup (stations w) /\
  (forall s, In s (stations w) <-> exists op, In op (operators w) /\ station op = s) /\
  subsequence (stations w) (map station (operators w)).
Proof.
  unfold stations, Set_of.
  destruct (Set_fold_spec (map station (operators w)) []) as (more & E & S & I & N).
  repeat split.
  - apply N. constructor.
  - intros H. apply I in H as [[] | H].
    apply in_map_iff in H as (op & <- & H). exists op. auto.
  - intros (op & H & <-). apply I. right. apply in_map. exact H.
  - rewrite E. exact S.
Qed.

Lemma filter_seen (seen : list string) (v : string) (l : list string) :
  existsb (String.eqb v) seen = true ->
  filter (fun x => negb (existsb (String.eqb x) seen))
    (filter (fun y => negb (y =? v)%string) l) =
  filter (fun x => negb (existsb (String.eqb x) seen)) l.
Proof.
  intros E. induction l as [| x l IH]; [reflexivity |].
  cbn [filter]. destruct (x =? v)%string eqn:X; cbn [negb].
  - apply String.eqb_eq in X. subst x. rewrite E. cbn [negb]. exact IH.
  - cbn [filter]. rewrite IH. reflexivity.
Qed.

Lemma filter_seen_more (seen : list string) (v : string) (l : list string) :
  filter (fun x => negb (existsb (String.eqb x) (seen ++ [v]))) l =
  filter (fun x => negb (existsb (String.eqb x) seen))
    (filter (fun y => negb (y =? v)%string) l).
Proof.
  induction l as [| x l IH]; [reflexivity |].
  cbn [filter]. rewrite existsb_app. cbn [existsb]. rewrite orb_false_r.
  destruct (x =? v)%string eqn:X; cbn [negb].
  - rewrite orb_true_r. cbn [negb]. exact IH.
  - rewrite orb_false_r. cbn [filter]. rewrite IH. reflexivity.
Qed.

(** Adding the values of a list to a [Set] one after the other leaves them
    in the order of their first occurrences. *)
Lemma Set_fold_order (values seen : list string) :
  fold_left Set_add values seen =
  seen ++ filter (fun x => negb (existsb (String.eqb x) seen))
            (first_occurrences values).
Proof.
  revert seen. induction values as [| v values IH]; intros seen.
  - simpl. now rewrite app_nil_r.
  - cbn [fold_left first_occurrences filter]. rewrite IH. unfold Set_add.
    destruct (existsb (String.eqb v) seen) eqn:E; cbn [negb].
    + now rewrite filter_seen.
    + rewrite filter_seen_more, <- app_assoc. reflexivity.
Qed.

(** X5. The stations offered by the station [<select>] are the stations
    of the operators, each once, in the order in which they first occur
    in the operator list. *)
Theorem X5_stations_each_once (w : World) :
  stations w = first_occurrences (map station (operators w)) /\
  NoDup (stations w) /\
  (forall s, In s (stations w) <-> exists op, In op (operators w) /\ station op = s) /\
  subsequence (stations w) (map station (operators w)).
Proof.
  split; [| apply stations_spec].
  unfold stations, Set_of. rewrite Set_fold_order. cbn [app existsb negb].
  induction (first_occurrences _) as [| x l IH];
    [reflexivity | cbn [filter]; now rewrite IH].
Qed.

Lemma count_one (S : list string) (x : string) :
  NoDup S -> In x S ->
  list_sum (map (fun s => if (x =? s)%string then 1 else 0) S) = 1.
Proof.
  induction S as [| s S IH]; intros N H; [destruct H |].
  inversion N as [| ? ? Hn N']; subst. simpl.
  destruct (String.eqb_spec x s) as [-> | Ne].
  - assert (Z : list_sum (map (fun s0 => if (s =? s0)%string then 1 else 0) S) = 0).
    { clear IH N N' H. induction S as [| t S IH]; [reflexivity |].
      simpl. destruct (String.eqb_spec s t) as [-> | _].
      - exfalso. apply Hn. left. reflexivity.
      - apply IH. intros H. apply Hn. right. exact H. }
    rewrite Z. reflexivity.
  - destruct H as [-> | H]; [congruence |]. rewrite (IH N' H). reflexivity.
Qed.

Lemma list_sum_add {A} (f g : A -> nat) (l : list A) :
  list_sum (map (fun x => f x + g x) l) = list_sum (map f l) + list_sum (map g l).
Proof.
  induction l as [| x l IH]; simpl; lia.
Qed.

Lemma partition_sum (S : list string) (ops : list Operator) :
  NoDup S -> (forall op, In op ops -> In (station op) S) ->
  list_sum (map (fun s => List.length
                  (filter (fun op => (station op =? s)%string) ops)) S)
  = List.length ops.
Proof.
  intros N. induction ops as [| op ops IH]; intros H.
  - simpl. clear N H. induction S as [| s S IHS]; simpl; auto.
  - rewrite (map_ext _
      (fun s => (if (station op =? s)%string then 1 else 0)
                + List.length (filter (fun o => (station o =? s)%string) ops))).
    + rewrite list_sum_add, count_one, IH; auto.
      * intros o Ho. apply H. right. exact Ho.
      * apply H. left. reflexivity.
    + intros s. simpl. destruct (station op =? s)%string; reflexivity.
Qed.

(** X6. The operators shown for a station: 'All Stations' shows the whole
    list; a station of the [<select>] (not the empty string) shows at
    least one operator, only operators of that station, in the order of
    the operator list; and when no operator's station is the empty
    string, the lists of all the stations together have as many entries
    as there are operators: every operator is listed under exactly one
    station. *)
Theorem X6_operators_by_station (w : World) :
  filteredOperators "" w = operators w /\
  (forall s, In s (stations w) -> s <> "" ->
     filteredOperators s w <> [] /\
     Forall (fun op => station op = s) (filteredOperators s w) /\
     subsequence (filteredOperators s w) (operators w)) /\
  ((forall op, In op (operators w) -> station op <> "") ->
   list_sum (map (fun s => List.length (filteredOperators s w)) (stations w))
   = List.length (operators w)).
Proof.
  destruct (stations_spec w) as (N & I & _).
  split; [reflexivity |]. split.
  - intros s Hs Ne. unfold filteredOperators.
    destruct (String.eqb_spec s "") as [-> | _]; [congruence |].
    repeat split.
    + apply I in Hs as (op & Hin & E). intros F.
      assert (Hf : In op (filter (fun op => (station op =? s)%string) (operators w))).
      { apply filter_In. split; [exact Hin |]. apply String.eqb_eq, E. }
      rewrite F in Hf. destruct Hf.
    + apply Forall_forall. intros op H. apply filter_In in H as [_ H].
      apply String.eqb_eq, H.
    + apply subsequence_filter.
  - intros Ne.
    rewrite <- (@partition_sum (stations w) (operators w) N).
    + f_equal. apply map_ext_in. intros s Hs. unfold filteredOperators.
      destruct (String.eqb_spec s "") as [-> | _]; [| reflexivity].
      apply I in Hs as (op & Hin & E). exfalso. exact (Ne op Hin E).
    + intros op Hin. apply I. exists op. auto.
Qed.

(** X6 on the sample line: one station, with both operators. *)
Lemma X6_operators_by_station_witness :
  filteredOperators "Station 1" Sample.page <> [] /\
  list_sum (map (fun s => List.length (filteredOperators s Sample.page))
              (stations Sample.page)) = 2.
Proof.
  destruct (X6_operators_by_station Sample.page) as (_ & F & P).
  split.
  - apply F; [left; reflexivity | discriminate].
  - apply P. intros op [<- | [<- | []]]; discriminate.
Defined.

(** ** The gallery of a station in MainPage1.jsx *)

Lemma MainPage1_load_keeps (env : Env) (w : World) :
  operators (final (MainPage1.loadDescriptors env w)) = operators w /\
  selectedStation (final (MainPage1.loadDescriptors env w)) = selectedStation w /\
  webcamRef (final (MainPage1.loadDescriptors env w)) = webcamRef w.
Proof.
  unfold MainPage1.loadDescriptors. run.
  destruct (List.length (filter _ (operators w)) =? 0); [repeat split |]. run.
  destruct (List.length _ =? 0); repeat split.
Qed.

Lemma station_gallery_entry (env : Env) (w : World) (e : LabeledFaceDescriptors.t) :
  In e (labeledDescriptors (final (MainPage1.loadDescriptors env w))) ->
  exists op, In op (operators w) /\ station op = selectedStation w
             /\ _id op = LabeledFaceDescriptors.label e.
Proof.
  rewrite MainPage1_gallery. intros H.
  apply gallery_entry in H as (op & d & Hin & _ & ->).
  unfold stationOperators in Hin. apply filter_In in Hin as [Hin S].
  exists op. repeat split; [exact Hin | apply String.eqb_eq, S].
Qed.

(** X7. In MainPage1.jsx the gallery is the gallery of the station
    that was selected when it was loaded: every entry that
    [loadDescriptors] sets is labelled with the id of an operator of that
    station. When the station is one of the station [<select>] and no
    photo of it gives a descriptor, the empty gallery is reported with
    the alert 'No valid face descriptors found for operators in this
    station.'. Selecting another station does not touch the gallery and
    does not disable the button: an attempt made after the selection has
    changed and before the next gallery is set (webcam ready, a face in
    the frame, a matcher that answers 'unknown' or a label of the
    gallery) records an operator of the station the gallery was loaded
    for, which need not be the station that is selected. *)
Theorem X7_station_gallery
    (env : Env) (w : World) (d : Descriptor) (station' : string) :
  let loaded := final (MainPage1.loadDescriptors env w) in
  let w' := final (setSelectedStation station' loaded) in
  (forall e, In e (labeledDescriptors loaded) ->
     exists op, In op (operators w) /\ station op = selectedStation w
                /\ _id op = LabeledFaceDescriptors.label e) /\
  (In (selectedStation w) (stations w) -> labeledDescriptors loaded = [] ->
   effects (MainPage1.loadDescriptors env w) = [alert NoValidDescriptorsInStation]) /\
  (selectedStation w' = station' /\
   labeledDescriptors w' = labeledDescriptors loaded /\
   MainPage1.disabled w' = (isRecognizing w || (station' =? "")%string)) /\
  (matcher_sound env -> ready w = true -> frame env = frame_face d ->
   forall id, accepts (effects (MainPage1.recognizeFace env w')) id ->
     exists op, In op (operators w) /\ station op = selectedStation w
                /\ _id op = id).
Proof.
  cbv zeta. split; [| split; [| split]].
  - intros e. apply station_gallery_entry.
  - intros S E. rewrite MainPage1_gallery in E.
    apply stations_spec in S as (op & Hin & S).
    unfold MainPage1.loadDescriptors. run.
    fold (stationOperators w).
    assert (Hs : In op (stationOperators w)).
    { apply filter_In. split; [exact Hin | apply String.eqb_eq, S]. }
    destruct (stationOperators w) as [| o ops] eqn:O; [destruct Hs |]. run.
    unfold gallery_of in E. rewrite E. reflexivity.
  - split; [reflexivity |]. split; [reflexivity |].
    unfold MainPage1.disabled. cbn [selectedStation isRecognizing setSelectedStation final].
    f_equal. unfold MainPage1.loadDescriptors. run.
    destruct (List.length (filter _ (operators w)) =? 0); [reflexivity |]. run.
    destruct (List.length _ =? 0); reflexivity.
  - intros S R F id A.
    destruct (MainPage1_load_keeps env w) as (O & St & W).
    set (loaded := final (MainPage1.loadDescriptors env w)) in *.
    set (w' := final (setSelectedStation station' loaded)) in *.
    assert (R' : ready w' = true).
    { change (ready w') with (ready loaded). unfold ready. rewrite W. exact R. }
    destruct (labeledDescriptors w') as [| e0 g0] eqn:G.
    { destruct (no_gallery_recognizeFace env w' G) as [_ E].
      rewrite E in A. discriminate A. }
    assert (N : labeledDescriptors w' <> []) by (rewrite G; discriminate).
    assert (Gr : gallery_over_roster w')
      by apply (proj2 (built_gallery_over_roster env w)).
    destruct (MainPage1_policy R' N F S Gr) as (A1 & A2 & _).
    assert (Acc : acceptable (findBestMatch env (labeledDescriptors w') d))
      by (apply A2; exists id; exact A).
    apply A1 in Acc as A'.
    unfold accepts in A, A'. rewrite A in A'. injection A' as ->.
    destruct (S (labeledDescriptors w') d N) as [U | L];
      [destruct Acc as [Acc _]; contradiction |].
    apply in_map_iff in L as (e & E & L).
    change (labeledDescriptors w') with (labeledDescriptors loaded) in L.
    destruct (station_gallery_entry env w e L) as (op & Hin & Hs & Hid).
    exists op. split; [exact Hin |]. split; [exact Hs |].
    rewrite Hid, E. reflexivity.
Qed.

(** X7 on the sample line: the gallery was loaded for Station 1, Station
    2 is selected, and the attempt records Alice of Station 1. *)
Lemma X7_station_gallery_witness :
  let w' := final (setSelectedStation "Station 2"
                     (final (MainPage1.loadDescriptors (Sample.env Sample.near true)
                               Sample.page))) in
  selectedStation w' = "Station 2" /\
  MainPage1.disabled w' = false /\
  accepts (effects (MainPage1.recognizeFace (Sample.env Sample.near true) w')) "A" /\
  exists op, In op (operators Sample.page) /\ station op = "Station 1" /\ _id op = "A".
Proof.
  cbv zeta.
  destruct (@X7_station_gallery (Sample.env Sample.near true) Sample.page
              Sample.near "Station 2") as (_ & _ & (St & _ & B) & H).
  split; [exact St |]. split; [exact B |]. split; [reflexivity |].
  apply (H (sample_matcher_sound _ _) eq_refl eq_refl "A"). reflexivity.
Defined.

(** ** Adding an operator *)

Lemma incomplete_form (base : string) (env : Env) (w : World) :
  FormData.file (formData w) = None \/
  FormData.name (formData w) = "" \/
  FormData.employeeId (formData w) = "" \/
  FormData.station (formData w) = "" \/
  FormData.ledIndex (formData w) = "" ->
  handleAddOperator base env w = mkOutcome (Ret tt) w [alert FillAllFields].
Proof.
  intros H. unfold handleAddOperator. run.
  destruct (FormData.file (formData w)) as [file |]; [| reflexivity].
  assert (E : isEmpty (FormData.name (formData w))
              || isEmpty (FormData.employeeId (formData w))
              || isEmpty (FormData.station (formData w))
              || isEmpty (FormData.ledIndex (formData w)) = true).
  { unfold isEmpty.
    destruct H as [H | [H | [H | [H | H]]]]; [discriminate | | | |];
      rewrite H; rewrite ?orb_true_r; reflexivity. }
  rewrite E. reflexivity.
Qed.

(** X8. An incomplete form sends nothing: when no file is chosen, or the
    name, the employee id, the station or the LED index is empty,
    [handleAddOperator] alerts 'Please fill all fields, ...' and does
    nothing else; no request leaves and no state changes. *)
Theorem X8_incomplete_form_sends_nothing (base : string) (env : Env) (w : World) :
  FormData.file (formData w) = None \/
  FormData.name (formData w) = "" \/
  FormData.employeeId (formData w) = "" \/
  FormData.station (formData w) = "" \/
  FormData.ledIndex (formData w) = "" ->
  handleAddOperator base env w = mkOutcome (Ret tt) w [alert FillAllFields].
Proof.
  apply incomplete_form.
Qed.

(** X8 on the sample page, whose form is empty. *)
Lemma X8_incomplete_form_sends_nothing_witness :
  effects (MainPage.handleAddOperator (Sample.env Sample.near true) Sample.page)
  = [alert FillAllFields].
Proof.
  unfold MainPage.handleAddOperator.
  rewrite (@X8_incomplete_form_sends_nothing "" (Sample.env Sample.near true)
             Sample.page); [reflexivity |].
  left. reflexivity.
Defined.

Section Submit.

Variables (base : string) (env : Env) (w : World) (file_ : File) (i : Z).

(** The form is filled and its LED index reads as [i], from 0 to 20. *)
Hypothesis Hfile : FormData.file (formData w) = Some file_.
Hypothesis Hname : FormData.name (formData w) <> "".
Hypothesis Hemployee : FormData.employeeId (formData w) <> "".
Hypothesis Hstation : FormData.station (formData w) <> "".
Hypothesis Hled : FormData.ledIndex (formData w) <> "".
Hypothesis Hparse : parseInt (FormData.ledIndex (formData w)) = Some i.
Hypothesis Hrange : (0 <= i <= 20)%Z.

Local Abbreviation local_path :=
  ("/images/" ++ ("operator-" ++ uniqueSuffix env ++ "."
                  ++ split_pop (file_name file_) ""))%string.

Local Abbreviation upload_request :=
  (mkRequest (base ++ "/upload")%string (uploadBody file_)).

Local Abbreviation operator_data path :=
  (OperatorData.mk (FormData.name (formData w)) (FormData.employeeId (formData w))
     (FormData.station (formData w)) path i).

Local Abbreviation operator_request path :=
  (mkRequest (base ++ "/api/operators/" ++ line env)%string
     (operatorBody (operator_data path))).

Lemma filled_passes :
  isEmpty (FormData.name (formData w))
  || isEmpty (FormData.employeeId (formData w))
  || isEmpty (FormData.station (formData w))
  || isEmpty (FormData.ledIndex (formData w)) = false
  /\ ((i <? 0)%Z || (20 <? i)%Z) = false.
Proof.
  unfold isEmpty. split.
  - repeat (apply orb_false_iff; split);
      apply String.eqb_neq; assumption.
  - apply orb_false_iff. split; apply Z.ltb_ge; lia.
Qed.

(** What a filled form sends, and where the image path comes from. *)
Lemma submit_requests :
  let path := if production env then Some local_path else upload env file_ in
  requests (effects (handleAddOperator base env w)) =
    (if production env then [] else [upload_request]) ++
    match path with
    | Some p => [operator_request p]
    | None => []
    end.
Proof.
  destruct filled_passes as [E B].
  cbv zeta. unfold handleAddOperator. run. rewrite Hfile. run.
  rewrite E, Hparse. run. rewrite B. run.
  destruct (production env); run.
  - destruct (create_operator env _); reflexivity.
  - destruct (upload env file_); run; [| reflexivity].
    destruct (create_operator env _); reflexivity.
Qed.

(** What a filled form does to the page. *)
Lemma submit_outcome :
  let path := if production env then Some local_path else upload env file_ in
  let o := handleAddOperator base env w in
  result o = Ret tt /\
  match path with
  | Some p =>
      match create_operator env (operator_data p) with
      | Some data =>
          operators (final o) = operators w ++ [data] /\
          formData (final o) = emptyForm /\
          showAddForm (final o) = false /\
          preview (final o) = None /\
          alerts (effects o) = [OperatorAdded]
      | None => final o = w /\ alerts (effects o) = [ErrorAddingOperator]
      end
  | None => final o = w /\ alerts (effects o) = [ErrorAddingOperator]
  end.
Proof.
  destruct filled_passes as [E B].
  cbv zeta. unfold handleAddOperator. run. rewrite Hfile. run.
  rewrite E, Hparse. run. rewrite B. run.
  destruct (production env); run.
  - destruct (create_operator env _); repeat split.
  - destruct (upload env file_); run; [| repeat split].
    destruct (create_operator env _); repeat split.
Qed.

End Submit.

(** X9. The requests of a filled form. In a production build
    [handleAddOperator] sends one request, the operator with the image
    path [/images/operator-<suffix>.<extension>] made from the name of
    the chosen file. Otherwise it first uploads the file: when the upload
    is refused nothing else is sent, no operator is created; when it is
    accepted the operator request follows and carries the path that the
    upload answered. *)
Theorem X9_upload_before_operator
    (base : string) (env : Env) (w : World) (file_ : File) (i : Z) :
  FormData.file (formData w) = Some file_ ->
  FormData.name (formData w) <> "" ->
  FormData.employeeId (formData w) <> "" ->
  FormData.station (formData w) <> "" ->
  FormData.ledIndex (formData w) <> "" ->
  parseInt (FormData.ledIndex (formData w)) = Some i ->
  (0 <= i <= 20)%Z ->
  let data path :=
    OperatorData.mk (FormData.name (formData w)) (FormData.employeeId (formData w))
      (FormData.station (formData w)) path i in
  let sent := requests (effects (handleAddOperator base env w)) in
  (production env = true ->
   sent = [mkRequest (base ++ "/api/operators/" ++ line env)%string
             (operatorBody
                (data ("/images/" ++ ("operator-" ++ uniqueSuffix env ++ "."
                                      ++ split_pop (file_name file_) ""))%string))]) /\
  (production env = false -> upload env file_ = None ->
   sent = [mkRequest (base ++ "/upload")%string (uploadBody file_)]) /\
  (production env = false -> forall path, upload env file_ = Some path ->
   sent = [mkRequest (base ++ "/upload")%string (uploadBody file_);
           mkRequest (base ++ "/api/operators/" ++ line env)%string
             (operatorBody (data path))]).
Proof.
  intros Hf Hn He Hs Hl Hp Hr. cbv zeta.
  pose proof (@submit_requests base env w file_ i Hf Hn He Hs Hl Hp Hr) as R.
  cbv zeta in R.
  repeat split.
  - intros P. rewrite P in R. exact R.
  - intros P U. rewrite P, U in R. exact R.
  - intros P path U. rewrite P, U in R. exact R.
Qed.

(** X9 on the filled sample form, in a production build. *)
Lemma X9_upload_before_operator_witness :
  List.length (requests (effects (MainPage.handleAddOperator
                                    Examples2.production_env Examples2.filled))) = 1.
Proof.
  destruct (@X9_upload_before_operator "" Examples2.production_env
              Examples2.filled (mkFile "nina.photo.jpg") 7%Z)
    as (P & _).
  - reflexivity.
  - discriminate.
  - discriminate.
  - discriminate.
  - discriminate.
  - reflexivity.
  - lia.
  - unfold MainPage.handleAddOperator. rewrite (P eq_refl). reflexivity.
Defined.

(** X10. The outcome of a filled form. When the backend creates the
    operator, the operator it answers is appended to the operator list,
    the form is cleared and hidden, the preview is dropped and 'Operator
    added successfully.' is shown. When the upload or the creation is
    refused nothing changes, neither the list nor the form, which can be
    submitted again, and 'Error adding operator: ...' is shown. No
    exception leaves [handleAddOperator]. *)
Theorem X10_submit_outcome
    (base : string) (env : Env) (w : World) (file_ : File) (i : Z) :
  FormData.file (formData w) = Some file_ ->
  FormData.name (formData w) <> "" ->
  FormData.employeeId (formData w) <> "" ->
  FormData.station (formData w) <> "" ->
  FormData.ledIndex (formData w) <> "" ->
  parseInt (FormData.ledIndex (formData w)) = Some i ->
  (0 <= i <= 20)%Z ->
  let path :=
    if production env
    then Some ("/images/" ++ ("operator-" ++ uniqueSuffix env ++ "."
                              ++ split_pop (file_name file_) ""))%string
    else upload env file_ in
  let o := handleAddOperator base env w in
  result o = Ret tt /\
  match path with
  | Some p =>
      match create_operator env
              (OperatorData.mk (FormData.name (formData w))
                 (FormData.employeeId (formData w))
                 (FormData.station (formData w)) p i) with
      | Some data =>
          operators (final o) = operators w ++ [data] /\
          formData (final o) = emptyForm /\
          showAddForm (final o) = false /\
          preview (final o) = None /\
          alerts (effects o) = [OperatorAdded]
      | None => final o = w /\ alerts (effects o) = [ErrorAddingOperator]
      end
  | None => final o = w /\ alerts (effects o) = [ErrorAddingOperator]
  end.
Proof.
  intros Hf Hn He Hs Hl Hp Hr.
  exact (@submit_outcome base env w file_ i Hf Hn He Hs Hl Hp Hr).
Qed.

(** X10 on the filled sample form: Nina joins Alice and Bob. *)
Lemma X10_submit_outcome_witness :
  operators (final (MainPage.handleAddOperator
                      (Sample.env Sample.near true) Examples2.filled)) =
  [Sample.alice; Sample.bob;
   mkOperator "N" "Nina" "E3" "Station 2" "/images/operator-1.jpg" (Some 7%Z)].
Proof.
  destruct (@X10_submit_outcome "" (Sample.env Sample.near true)
              Examples2.filled (mkFile "nina.photo.jpg") 7%Z)
    as (_ & O).
  - reflexivity.
  - discriminate.
  - discriminate.
  - discriminate.
  - discriminate.
  - reflexivity.
  - lia.
  - vm_compute in O |- *. exact (proj1 O).
Defined.

Lemma operator_request_safe (base : string) (env : Env) (w : World)
    (data : OperatorData.t) :
  In data (operator_requests (effects (handleAddOperator base env w))) ->
  parseInt (FormData.ledIndex (formData w)) = Some (OperatorData.ledIndex data) /\
  (0 <= OperatorData.ledIndex data <= 20)%Z /\
  OperatorData.name data = FormData.name (formData w) /\
  OperatorData.employeeId data = FormData.employeeId (formData w) /\
  OperatorData.station data = FormData.station (formData w) /\
  FormData.name (formData w) <> "" /\
  FormData.employeeId (formData w) <> "" /\
  FormData.station (formData w) <> "".
Proof.
  unfold handleAddOperator. run.
  destruct (FormData.file (formData w)) as [file |]; run; [| intros []].
  destruct (isEmpty (FormData.name (formData w)) || _ || _ || _) eqn:E; run;
    [intros [] |].
  destruct (parseInt (FormData.ledIndex (formData w))) as [i |] eqn:P; run;
    [| intros []].
  destruct ((i <? 0)%Z || (20 <? i)%Z) eqn:B; run; [intros [] |].
  apply orb_false_iff in B as [B1 B2]. apply Z.ltb_ge in B1, B2.
  unfold isEmpty in E.
  apply orb_false_iff in E as [E _].
  apply orb_false_iff in E as [E E3].
  apply orb_false_iff in E as [E1 E2].
  apply String.eqb_neq in E1, E2, E3.
  assert (G : forall path,
             data = OperatorData.mk (FormData.name (formData w))
                      (FormData.employeeId (formData w))
                      (FormData.station (formData w)) path i ->
             Some i = Some (OperatorData.ledIndex data) /\
             (0 <= OperatorData.ledIndex data <= 20)%Z /\
             OperatorData.name data = FormData.name (formData w) /\
             OperatorData.employeeId data = FormData.employeeId (formData w) /\
             OperatorData.station data = FormData.station (formData w) /\
             FormData.name (formData w) <> "" /\
             FormData.employeeId (formData w) <> "" /\
             FormData.station (formData w) <> "").
  { intros path ->. simpl. repeat split; auto; lia. }
  destruct (production env); run.
  - destruct (create_operator env _); run; cbn;
      intros [H | []]; apply (G _ (eq_sym H)).
  - destruct (upload env file); run; [| intros []].
    destruct (create_operator env _); run; cbn;
      intros [H | []]; apply (G _ (eq_sym H)).
Qed.

Lemma operator_request_once (base : string) (env : Env) (w : World) :
  List.length (operator_requests (effects (handleAddOperator base env w))) <= 1.
Proof.
  unfold handleAddOperator. run.
  repeat (branch; run); cbn; lia.
Qed.

(** X11. What [handleAddOperator] asks the backend to create. Whatever
    the form holds, it sends at most one operator, and an operator it
    sends has a LED index from 0 to 20, the number read from the LED
    index field, and the name, employee id and station of the form, none
    of them empty. When the LED index field holds an option of the
    [<select>], the index sent is the index of that option. *)
Theorem X11_operator_requests_are_valid
    (count : nat) (base : string) (env : Env) (w : World) :
  List.length (operator_requests (effects (handleAddOperator base env w))) <= 1 /\
  (forall data,
     In data (operator_requests (effects (handleAddOperator base env w))) ->
     parseInt (FormData.ledIndex (formData w)) = Some (OperatorData.ledIndex data) /\
     (0 <= OperatorData.ledIndex data <= 20)%Z /\
     OperatorData.name data = FormData.name (formData w) /\
     OperatorData.employeeId data = FormData.employeeId (formData w) /\
     OperatorData.station data = FormData.station (formData w) /\
     FormData.name (formData w) <> "" /\
     FormData.employeeId (formData w) <> "" /\
     FormData.station (formData w) <> "") /\
  (count <= 21 ->
   forall idx, In idx (getAvailableLedIndexes count w) ->
     let chosen := final (onChangeLedIndex (toString idx) w) in
     forall data,
       In data (operator_requests (effects (handleAddOperator base env chosen))) ->
       OperatorData.ledIndex data = idx).
Proof.
  split; [apply operator_request_once |].
  split; [intros data; apply operator_request_safe |].
  intros C idx Hin chosen data H.
  apply operator_request_safe in H as (P & _).
  apply available_iff in Hin as [R _].
  destruct (@parse_toString idx) as [P' _]; [lia |].
  unfold chosen, onChangeLedIndex in P. run. cbn in P.
  rewrite P' in P. congruence.
Qed.

(** X11 on the sample page: option 7 is chosen and 7 is sent. *)
Lemma X11_operator_requests_are_valid_witness :
  Forall (fun data => OperatorData.ledIndex data = 7%Z)
    (operator_requests
       (effects (handleAddOperator "" (Sample.env Sample.near true)
                   (final (onChangeLedIndex (toString 7) Examples2.filled))))).
Proof.
  destruct (@X11_operator_requests_are_valid 21 "" (Sample.env Sample.near true)
              Examples2.filled) as (_ & _ & H).
  apply Forall_forall.
  apply (H (Nat.le_refl 21) 7%Z).
  vm_compute. intuition discriminate.
Defined.

(** ** The extension of the stored file *)

Lemma split_pop_dotless (s last : string) :
  dotless s = true -> split_pop s last = (last ++ s)%string.
Proof.
  revert last. induction s as [| c s IH]; intros last D; simpl in *.
  - clear. induction last as [| a l IHl]; simpl; congruence.
  - apply andb_true_iff in D as [C D]. apply negb_true_iff in C.
    rewrite C, (IH _ D).
    clear. induction last as [| a l IHl]; simpl; congruence.
Qed.

Lemma split_pop_result_dotless (s last : string) :
  dotless last = true -> dotless (split_pop s last) = true.
Proof.
  revert last. induction s as [| c s IH]; intros last D; simpl; [exact D |].
  destruct (c =? ".")%char eqn:C; apply IH; [reflexivity |].
  clear IH. induction last as [| a l IHl]; simpl in *.
  - rewrite C. reflexivity.
  - apply andb_true_iff in D as [D1 D2]. rewrite D1, (IHl D2). reflexivity.
Qed.

Lemma split_pop_after_dot (stem ext last : string) :
  split_pop (stem ++ String "." ext) last = split_pop ext "".
Proof.
  revert last. induction stem as [| c s IH]; intros last; simpl.
  - reflexivity.
  - destruct (c =? ".")%char; apply IH.
Qed.

(** X12. The extension that [handleAddOperator] gives the stored file
    ([name.split('.').pop()]) never holds a dot; it is what follows the
    last dot of the name of the chosen file, and the whole name when the
    name has no dot. *)
Theorem X12_file_extension (name_ stem ext : string) :
  dotless (split_pop name_ "") = true /\
  (dotless name_ = true -> split_pop name_ "" = name_) /\
  (dotless ext = true -> split_pop (stem ++ String "." ext) "" = ext).
Proof.
  repeat split.
  - apply split_pop_result_dotless. reflexivity.
  - intros D. apply (split_pop_dotless _ "" D).
  - intros D. rewrite split_pop_after_dot. apply (split_pop_dotless _ "" D).
Qed.

(** X12 on the sample file. *)
Lemma X12_file_extension_witness :
  split_pop "nina.photo.jpg" "" = "jpg" /\ split_pop "nina" "" = "nina".
Proof.
  destruct (X12_file_extension "nina" "nina.photo" "jpg") as (_ & W & E).
  split; [apply E | apply W]; reflexivity.
Defined.

(** ** Deleting an operator *)

Lemma filter_keeps_others (id : string) (ops : list Operator) :
  (forall op, In op ops -> _id op <> id) ->
  filter (fun op => negb (_id op =? id)%string) ops = ops.
Proof.
  intros H. apply forallb_filter_id. apply forallb_forall.
  intros op Hin. apply negb_true_iff, String.eqb_neq, H, Hin.
Qed.

(** X13. [handleDeleteOperator] sends one [DELETE] for the id and nothing
    else. When the backend accepts it, the operators with that id leave
    the list and all the others stay, in their order; nothing is shown.
    When it refuses, the page is unchanged and 'Error deleting operator:
    ...' is shown. An id that no operator has leaves the list as it is.
    No exception leaves the handler. *)
Theorem X13_delete_removes_that_id
    (base : string) (env : Env) (id : string) (w : World) :
  let o := handleDeleteOperator base env id w in
  result o = Ret tt /\
  deletes (effects o) = [(base ++ "/api/operators/" ++ line env ++ "/" ++ id)%string] /\
  requests (effects o) = [] /\
  (delete_operator env id = true ->
   (forall op, In op (operators (final o)) <-> In op (operators w) /\ _id op <> id) /\
   subsequence (operators (final o)) (operators w) /\
   alerts (effects o) = [] /\
   formData (final o) = formData w /\
   attendance (final o) = attendance w) /\
  (delete_operator env id = false ->
   final o = w /\ alerts (effects o) = [ErrorDeletingOperator]) /\
  ((forall op, In op (operators w) -> _id op <> id) ->
   operators (final o) = operators w).
Proof.
  cbv zeta. unfold handleDeleteOperator. run.
  destruct (delete_operator env id) eqn:D; run; cbn;
    (split; [reflexivity |]); (split; [reflexivity |]); (split; [reflexivity |]);
    (split; [| split]); try (intros; discriminate).
  - intros _. repeat split.
    + apply filter_In in H. tauto.
    + apply filter_In in H as [_ K].
      apply negb_true_iff, String.eqb_neq in K. exact K.
    + intros [Hin N]. apply filter_In. split; [exact Hin |].
      apply negb_true_iff, String.eqb_neq. exact N.
    + apply subsequence_filter.
  - apply filter_keeps_others.
  - intros _. split; [destruct w |]; reflexivity.
  - reflexivity.
Qed.

(** X13 on the sample line: Alice is deleted, Bob stays. *)
Lemma X13_delete_removes_that_id_witness :
  In Sample.bob
    (operators (final (handleDeleteOperator "" (Sample.env Sample.near true) "A"
                         Sample.page))).
Proof.
  destruct (X13_delete_removes_that_id "" (Sample.env Sample.near true) "A" Sample.page)
    as (_ & _ & _ & S & _).
  destruct (S eq_refl) as (I & _).
  apply I. split; [right; left; reflexivity | discriminate].
Defined.

(** X14. Adding an operator and then deleting it gives the operator list
    back: when [handleAddOperator] has appended the operator the backend
    answered, no other operator has its id, and the backend accepts the
    [DELETE], [handleDeleteOperator] of that id ends with the list that
    was there before the addition. *)
Theorem X14_add_then_delete
    (base : string) (env env' : Env) (w : World) (data : Operator) :
  let added := final (handleAddOperator base env w) in
  operators added = operators w ++ [data] ->
  (forall op, In op (operators w) -> _id op <> _id data) ->
  delete_operator env' (_id data) = true ->
  operators (final (handleDeleteOperator base env' (_id data) added)) = operators w.
Proof.
  cbv zeta. intros A F D.
  unfold handleDeleteOperator. run. rewrite D. run.
  rewrite A, filter_app, (@filter_keeps_others (_id data) (operators w) F). simpl.
  rewrite String.eqb_refl. simpl. apply app_nil_r.
Qed.

(** X14 on the filled sample form: Nina is added and deleted again. *)
Lemma X14_add_then_delete_witness :
  operators
    (final (handleDeleteOperator "" (Sample.env Sample.near true) "N"
              (final (handleAddOperator "" (Sample.env Sample.near true)
                        Examples2.filled))))
  = [Sample.alice; Sample.bob].
Proof.
  apply (@X14_add_then_delete "" (Sample.env Sample.near true)
           (Sample.env Sample.near true) Examples2.filled
           (mkOperator "N" "Nina" "E3" "Station 2" "/images/operator-1.jpg" (Some 7%Z))).
  - reflexivity.
  - intros op [<- | [<- | []]]; discriminate.
  - reflexivity.
Defined.

(** X15. Submitting twice adds once: when [handleAddOperator] has added
    an operator it has cleared the form, so calling it again on the page
    it left sends nothing and only alerts 'Please fill all fields, ...'. *)
Theorem X15_second_submit_sends_nothing
    (base : string) (env env' : Env) (w : World) :
  In OperatorAdded (alerts (effects (handleAddOperator base env w))) ->
  handleAddOperator base env' (final (handleAddOperator base env w)) =
    mkOutcome (Ret tt) (final (handleAddOperator base env w)) [alert FillAllFields].
Proof.
  intros H. apply incomplete_form. left.
  revert H. unfold handleAddOperator. run.
  repeat (branch; run); cbn; intros H;
    repeat (destruct H as [H | H]; try discriminate H); try contradiction;
    reflexivity.
Qed.

(** X15 on the filled sample form. *)
Lemma X15_second_submit_sends_nothing_witness :
  requests (effects (handleAddOperator "" (Sample.env Sample.near true)
                       (final (handleAddOperator "" (Sample.env Sample.near true)
                                 Examples2.filled)))) = [].
Proof.
  rewrite (@X15_second_submit_sends_nothing "" (Sample.env Sample.near true)
             (Sample.env Sample.near true) Examples2.filled).
  - reflexivity.
  - vm_compute. left. reflexivity.
Defined.

(** ** How many LED indexes are offered *)

Lemma filter_split_length {A} (f : A -> bool) (l : list A) :
  List.length (filter f l) + List.length (filter (fun x => negb (f x)) l)
  = List.length l.
Proof.
  induction l as [| x l IH]; simpl; [reflexivity |].
  destruct (f x); simpl; lia.
Qed.

Lemma NoDup_indexes (count : nat) : NoDup (map Z.of_nat (seq 0 count)).
Proof.
  assert (G : forall l, NoDup l -> NoDup (map Z.of_nat l)).
  { induction 1 as [| x l Hx N IH]; simpl; constructor; [| exact IH].
    intros H. apply in_map_iff in H as (y & E & H).
    apply Nat2Z.inj in E. subst. contradiction. }
  apply G, seq_NoDup.
Qed.

Lemma taken_length (count : nat) (ops : list Operator) :
  NoDup (assignedLeds ops) ->
  Forall (fun i => (0 <= i < Z.of_nat count)%Z) (assignedLeds ops) ->
  List.length (filter (includes (map ledIndex ops)) (map Z.of_nat (seq 0 count)))
  = List.length (assignedLeds ops).
Proof.
  intros N B. apply Permutation_length, NoDup_Permutation.
  - apply NoDup_filter, NoDup_indexes.
  - exact N.
  - intros idx. rewrite filter_In, includes_In, assigned_In, in_map_iff. split.
    + tauto.
    + intros H. split; [| exact H].
      rewrite Forall_forall in B. specialize (B idx H).
      exists (Z.to_nat idx). split; [lia |]. apply in_seq. lia.
Qed.

(** X16. The LED indexes offered by the [<select>] are in increasing
    order, each once. When the indexes of the operators are distinct and
    all below the number [count] of indexes of the page, the offered and
    the assigned indexes together are [count]; so a line that uses all
    of them is offered none, and the [<select>] is left with its empty
    option. *)
Theorem X16_offered_plus_assigned (count : nat) (w : World) :
  subsequence (getAvailableLedIndexes count w) (map Z.of_nat (seq 0 count)) /\
  NoDup (getAvailableLedIndexes count w) /\
  (NoDup (assignedLeds (operators w)) ->
   Forall (fun i => (0 <= i < Z.of_nat count)%Z) (assignedLeds (operators w)) ->
   List.length (getAvailableLedIndexes count w)
   + List.length (assignedLeds (operators w)) = count /\
   (List.length (assignedLeds (operators w)) = count -> ledOptions count w = [""])).
Proof.
  split; [apply subsequence_filter |].
  split; [apply NoDup_filter, NoDup_indexes |].
  intros N B.
  assert (L : List.length (getAvailableLedIndexes count w)
              + List.length (assignedLeds (operators w)) = count).
  { pose proof (filter_split_length (includes (map ledIndex (operators w)))
                  (map Z.of_nat (seq 0 count))) as S.
    rewrite (@taken_length count (operators w) N B), length_map, length_seq in S.
    unfold getAvailableLedIndexes. lia. }
  split; [exact L |].
  intros F. unfold ledOptions.
  destruct (getAvailableLedIndexes count w); [reflexivity | simpl in L; lia].
Qed.

(** X16 on the sample line: 21 indexes, two of them taken. *)
Lemma X16_offered_plus_assigned_witness :
  List.length (MainPage.getAvailableLedIndexes Sample.page) + 2 = 21.
Proof.
  destruct (X16_offered_plus_assigned 21 Sample.page) as (_ & _ & H).
  destruct H as (L & _).
  - repeat constructor; simpl; intuition discriminate.
  - repeat constructor; lia.
  - exact L.
Defined.

(** ** The notifier, connected or not *)

Lemma service_step_frame (w : World) (ev : MQTT.ServiceEvent) :
  operators (MQTT.service_step w ev) = operators w /\
  attendance (MQTT.service_step w ev) = attendance w /\
  labeledDescriptors (MQTT.service_step w ev) = labeledDescriptors w /\
  isRecognizing (MQTT.service_step w ev) = isRecognizing w /\
  webcamRef (MQTT.service_step w ev) = webcamRef w.
Proof.
  unfold MQTT.service_step, MQTT.connect, MQTT.handle.
  destruct ev as [[c |] | e]; run; repeat split.
  all: destruct (client (mqttService w)); run; try destruct e; repeat split.
Qed.

(** X17. From its construction on, through every call of [connect] and
    every event of its client, the service can be asked to publish:
    [publishLedStatus] returns without an exception and changes no state.
    While the service is connected it hands the broker exactly one
    message, [{ ledIndex, status }] on the topic [attendance/<line>/led];
    otherwise none. It never sends a request to the backend, and nothing
    that happens to the service touches the operators, the attendance
    list, the gallery or the webcam of the page. After an 'error',
    'close' or 'offline' event of the client the service is not
    connected. *)
Theorem X17_publish_in_every_service_state
    (env : Env) (w : World) (evs : list MQTT.ServiceEvent)
    (line_ : string) (ledIndex_ : Z) (status_ : string) :
  let s := fold_left MQTT.service_step evs (MQTT.constructed w) in
  let o := MQTT.publishLedStatus env line_ ledIndex_ status_ s in
  (result o = Ret tt /\
   final o = s /\
   requests (effects o) = [] /\
   publishes (effects o) =
     if connected (mqttService s)
     then [(("attendance/" ++ line_ ++ "/led")%string, mkLed ledIndex_ status_)]
     else []) /\
  (operators s = operators w /\ attendance s = attendance w /\
   labeledDescriptors s = labeledDescriptors w /\ webcamRef s = webcamRef w) /\
  (forall ev, ev <> MQTT.on_connect ->
     connected (mqttService (MQTT.service_step s (MQTT.client_event ev))) = false).
Proof.
  cbv zeta.
  pose proof (service_reachable_ok evs w) as K.
  set (s := fold_left MQTT.service_step evs (MQTT.constructed w)) in *.
  split; [| split].
  - unfold service_ok in K. unfold MQTT.publishLedStatus. run.
    destruct (connected (mqttService s)); run; [| repeat split].
    destruct (client (mqttService s)); run; [| exfalso; apply K; reflexivity].
    destruct (broker_ack env); repeat split.
  - subst s.
    assert (G : forall w0,
               operators (fold_left MQTT.service_step evs w0) = operators w0 /\
               attendance (fold_left MQTT.service_step evs w0) = attendance w0 /\
               labeledDescriptors (fold_left MQTT.service_step evs w0)
                 = labeledDescriptors w0 /\
               webcamRef (fold_left MQTT.service_step evs w0) = webcamRef w0).
    { clear K. induction evs as [| ev evs IH]; intros w0; [repeat split |].
      simpl. destruct (IH (MQTT.service_step w0 ev)) as (A & B & C & D).
      destruct (service_step_frame w0 ev) as (A' & B' & C' & _ & D').
      repeat split; congruence. }
    apply (G (MQTT.constructed w)).
  - intros ev Ne. pose proof K as K'. unfold service_ok in K'.
    unfold MQTT.service_step, MQTT.handle. run.
    destruct (client (mqttService s)) as [c |] eqn:C; run.
    + destruct ev; try reflexivity. congruence.
    + destruct (connected (mqttService s)); [| reflexivity].
      exfalso. exact (K' eq_refl eq_refl).
Qed.

(** X17 on the sample page: the client connects, then the connection
    closes. *)
Lemma X17_publish_in_every_service_state_witness :
  connected (mqttService
    (fold_left MQTT.service_step
       [MQTT.connect_called (Some 1); MQTT.client_event MQTT.on_connect;
        MQTT.client_event MQTT.on_close]
       (MQTT.constructed Sample.page))) = false.
Proof.
  destruct (X17_publish_in_every_service_state (Sample.env Sample.near true)
              Sample.page
              [MQTT.connect_called (Some 1); MQTT.client_event MQTT.on_connect]
              "L1" 3%Z "present") as (_ & _ & H).
  apply (H MQTT.on_close). discriminate.
Defined.

Lemma length_append (s t : string) :
  String.length (s ++ t) = String.length s + String.length t.
Proof.
  induction s as [| c s IH]; simpl; congruence.
Qed.

Lemma append_cancel_r (s1 s2 t : string) :
  (s1 ++ t = s2 ++ t)%string -> s1 = s2.
Proof.
  revert s2. induction s1 as [| c s1 IH]; intros [| c2 s2] E; simpl in E.
  - reflexivity.
  - apply (f_equal String.length) in E. simpl in E.
    rewrite length_append in E. lia.
  - apply (f_equal String.length) in E. simpl in E.
    rewrite length_append in E. lia.
  - injection E as -> E. f_equal. apply IH, E.
Qed.

(** X18. Two lines never share a topic: the messages that
    [publishLedStatus] hands the broker for two lines go to the same
    topic only when the lines are the same. *)
Theorem X18_one_topic_per_line
    (env : Env) (w : World) (line1 line2 : string) (i1 i2 : Z) (s1 s2 : string)
    (topic : string) (m1 m2 : LedMessage) :
  In (topic, m1) (publishes (effects (MQTT.publishLedStatus env line1 i1 s1 w))) ->
  In (topic, m2) (publishes (effects (MQTT.publishLedStatus env line2 i2 s2 w))) ->
  line1 = line2.
Proof.
  unfold MQTT.publishLedStatus. run.
  destruct (connected (mqttService w)); run; [| intros []].
  destruct (client (mqttService w)); run; [| intros []].
  destruct (broker_ack env); cbn;
    intros [H1 | []] [H2 | []];
    injection H1 as H1 _; injection H2 as H2 _;
    rewrite <- H2 in H1; injection H1 as H1;
    apply append_cancel_r in H1; exact H1.
Qed.

(** X18 on a connected service: no message for line L2 goes to the
    topic of line L1. *)
Lemma X18_one_topic_per_line_witness :
  ~ In ("attendance/L1/led", mkLed 5 "absent")
      (publishes (effects (MQTT.publishLedStatus (Sample.env Sample.near true)
                             "L2" 5 "absent" Examples2.connected))).
Proof.
  intros H.
  assert (E : "L1" = "L2").
  { apply (@X18_one_topic_per_line (Sample.env Sample.near true)
             Examples2.connected "L1" "L2" 3%Z 5%Z "present" "absent"
             "attendance/L1/led" (mkLed 3 "present") (mkLed 5 "absent"));
      [left; reflexivity | exact H]. }
  discriminate E.
Defined.

(** ** The camera of the modal *)

(** X19. Starting and closing the camera. When [getUserMedia] gives a
    stream and the webcam is mounted, [startVideo] attaches the stream to
    the video, where it replaces the stream that was there, and shows
    nothing. When the webcam is not mounted the stream is attached
    nowhere and the page is unchanged. When the camera is refused,
    [startVideo] shows 'Failed to access webcam. ...', clears
    [isRecognizing] and leaves the video as it was. In no case does an
    exception leave it. The cleanup that runs when the modal closes reads
    [webcamRef.current] after React has detached it and calls [stop()]
    on no track: the tracks of the stream go out of reach as they were
    given, and a live track of a stream that [startVideo] has opened is
    still live when the modal has been closed. *)
Theorem X19_camera_start_and_release (env : Env) (c : Camera.t) :
  let w := Camera.page c in
  let o := startVideo env w in
  let c' := Camera.startVideo env c in
  result o = Ret tt /\
  (forall stream video,
     userMedia env = Some stream -> webcamRef w = Some video ->
     tracks (final o) = stream /\
     webcamRef (final o) = Some (mkVideo (readyState video) (Some stream)) /\
     isRecognizing (final o) = isRecognizing w /\
     effects o = [] /\
     Camera.unreachable c' = Camera.unreachable c ++ tracks w /\
     Camera.unreachable (Camera.teardown c') =
       (Camera.unreachable c ++ tracks w) ++ stream) /\
  (forall stream,
     userMedia env = Some stream -> webcamRef w = None ->
     final o = w /\ effects o = [] /\
     Camera.unreachable c' = Camera.unreachable c ++ stream) /\
  (userMedia env = None ->
   alerts (effects o) = [CameraAccessFailed] /\
   isRecognizing (final o) = false /\
   webcamRef (final o) = webcamRef w /\
   Camera.unreachable c' = Camera.unreachable c) /\
  (forall stream t,
     userMedia env = Some stream -> In t stream -> stop_calls t = 0 ->
     ~ Camera.released (Camera.teardown c')).
Proof.
  cbv zeta. destruct c as [w u]. cbn [Camera.page Camera.unreachable].
  split; [| split; [| split; [| split]]].
  - unfold startVideo. destruct (userMedia env); run; [| reflexivity].
    destruct (webcamRef w); reflexivity.
  - intros stream video U V. rewrite teardown_detached.
    unfold Camera.startVideo, startVideo. cbn [Camera.page Camera.unreachable].
    rewrite U. run. rewrite V. run. repeat split.
  - intros stream U V.
    unfold Camera.startVideo, startVideo. cbn [Camera.page Camera.unreachable].
    rewrite U. run. rewrite V. repeat split.
  - intros U.
    unfold Camera.startVideo, startVideo. cbn [Camera.page Camera.unreachable].
    rewrite U. run. rewrite app_nil_r. repeat split.
  - intros stream t U I L. rewrite teardown_released.
    unfold Camera.released, Camera.startVideo, startVideo.
    cbn [Camera.page Camera.unreachable]. rewrite U. run.
    intros F. rewrite !Forall_app in F.
    assert (B : 1 <= stop_calls t); [| lia].
    destruct (webcamRef w) as [video |]; run.
    + destruct F as [F _]. unfold tracks in F. cbn in F.
      rewrite Forall_forall in F. apply F, I.
    + destruct F as (_ & _ & F). rewrite Forall_forall in F. apply F, I.
Qed.

(** X19 on the sample page: the camera gives one live track, the modal is
    closed, and the track is still live. *)
Lemma X19_camera_start_and_release_witness :
  ~ Camera.released
      (Camera.teardown
         (Camera.startVideo (Sample.env Sample.near true)
            (Camera.of_page Sample.page))).
Proof.
  destruct (X19_camera_start_and_release (Sample.env Sample.near true)
              (Camera.of_page Sample.page)) as (_ & _ & _ & _ & H).
  apply (H [mkTrack 0 0] (mkTrack 0 0)); [reflexivity | now left | reflexivity].
Defined.

(** ** The token: [api.js], [Login.jsx] and the loading of the pages *)

Lemma getItem_setItem_same (key value : string) (store : Api.Store) :
  Api.getItem key (Api.setItem key value store) = Some value.
Proof.
  unfold Api.getItem.
  induction store as [| [k v] rest IH]; cbn.
  - now rewrite String.eqb_refl.
  - destruct (k =? key)%string eqn:E; cbn.
    + now rewrite String.eqb_refl.
    + now rewrite E.
Qed.

Lemma getItem_setItem_other (key key' value : string) (store : Api.Store) :
  key' <> key ->
  Api.getItem key' (Api.setItem key value store) = Api.getItem key' store.
Proof.
  intros N. unfold Api.getItem.
  induction store as [| [k v] rest IH]; cbn.
  - apply String.eqb_neq in N. rewrite String.eqb_sym in N. now rewrite N.
  - destruct (k =? key)%string eqn:E; cbn.
    + apply String.eqb_eq in E. subst k.
      apply String.eqb_neq in N. rewrite String.eqb_sym in N. now rewrite N.
    + destruct (k =? key')%string; [reflexivity | exact IH].
Qed.

Lemma setItem_twice (key value value' : string) (store : Api.Store) :
  Api.setItem key value' (Api.setItem key value store) =
  Api.setItem key value' store.
Proof.
  induction store as [| [k v] rest IH]; cbn.
  - now rewrite String.eqb_refl.
  - destruct (k =? key)%string eqn:E; cbn.
    + now rewrite String.eqb_refl.
    + now rewrite E, IH.
Qed.

Lemma interceptor_token (store : Api.Store) (config : Api.Config) (token : string) :
  Api.getItem "token" store = Some token -> token <> "" ->
  Api.authorization (Api.interceptor store config) = Some ("Bearer " ++ token)%string.
Proof.
  intros G N. unfold Api.interceptor. rewrite G.
  apply String.eqb_neq in N. rewrite N.
  unfold Api.authorization. cbn [Api.headers].
  apply getItem_setItem_same.
Qed.

Lemma interceptor_url (store : Api.Store) (config : Api.Config) :
  Api.url (Api.interceptor store config) = Api.url config.
Proof.
  unfold Api.interceptor.
  destruct (Api.getItem "token" store) as [token |]; [| reflexivity].
  now destruct (token =? "")%string.
Qed.

(** X20. The request interceptor of [api] never changes the URL of a
    request; with no token stored, or an empty one, it returns the
    request as it came; with a token it sets the [Authorization] header
    to [Bearer <token>], replacing an earlier value, and keeps every
    other header; and applying it twice is applying it once. *)
Theorem X20_interceptor (store : Api.Store) (config : Api.Config) :
  let sent := Api.interceptor store config in
  Api.url sent = Api.url config /\
  (Api.getItem "token" store = None \/ Api.getItem "token" store = Some "" ->
   sent = config) /\
  (forall token,
     Api.getItem "token" store = Some token -> token <> "" ->
     Api.authorization sent = Some ("Bearer " ++ token)%string /\
     forall key,
       key <> "Authorization" ->
       match Api.headers sent with
       | Some h => Api.getItem key h
       | None => None
       end =
       match Api.headers config with
       | Some h => Api.getItem key h
       | None => None
       end) /\
  Api.interceptor store sent = sent.
Proof.
  cbv zeta. unfold Api.interceptor.
  destruct (Api.getItem "token" store) as [token |] eqn:G.
  2: { split; [reflexivity |]. split; [reflexivity |]. split; [| reflexivity].
       intros t Ht. discriminate. }
  destruct (token =? "")%string eqn:E.
  - apply String.eqb_eq in E. subst token.
    split; [reflexivity |]. split; [reflexivity |]. split; [| reflexivity].
    intros t Ht N. injection Ht as <-. now destruct N.
  - cbn [Api.url Api.headers]. split; [reflexivity |]. split.
    + intros [H | H]; [discriminate |]. injection H as ->. discriminate.
    + split.
      * intros t Ht N. injection Ht as <-. split.
        -- unfold Api.authorization. cbn [Api.headers].
           apply getItem_setItem_same.
        -- intros key K. rewrite getItem_setItem_other by exact K.
           now destruct (Api.headers config).
      * now rewrite setItem_twice.
Qed.

(** X21. A login the backend accepts stores the token under [token],
    leaves every other key of [localStorage] alone, goes to the page of
    the line that was typed (not of the line the backend answered) and
    sets no error; when the token is not empty, the two requests with
    which either page then loads its data both carry
    [Authorization: Bearer <token>]. *)
Theorem X21_login_then_load (token answered : string) (s : Login.State)
  (line_ date_ : string) :
  token <> "" ->
  let o := Login.handleSubmit (inr (token, answered)) s in
  let store := Login.localStorage (Login.state o) in
  Login.result o = Ret tt /\
  Api.getItem "token" store = Some token /\
  (forall key, key <> "token" ->
     Api.getItem key store = Api.getItem key (Login.localStorage s)) /\
  Login.location (Login.state o) = ("/" ++ Login.line s)%string /\
  Login.error (Login.state o) = Login.error s /\
  Login.logins (Login.state o) = Login.logins s ++ [(token, answered)] /\
  Forall (fun c => Api.authorization c = Some ("Bearer " ++ token)%string)
    (Loader.MainPage_requests store line_ date_) /\
  Forall (fun c => Api.authorization c = Some ("Bearer " ++ token)%string)
    (Loader.MainPage1_requests store line_ date_).
Proof.
  intros N. cbv zeta. cbn [Login.handleSubmit Login.result Login.state
    Login.localStorage Login.location Login.error Login.logins].
  pose proof (getItem_setItem_same "token" token (Login.localStorage s)) as G.
  repeat split; try assumption.
  - intros key K. now apply getItem_setItem_other.
  - unfold Loader.MainPage_requests. cbn [map].
    repeat constructor; now apply interceptor_token.
  - unfold Loader.MainPage1_requests. rewrite G.
    repeat constructor.
Qed.

Lemma X21_login_then_load_witness :
  Forall (fun c => Api.authorization c = Some "Bearer t0k3n")
    (Loader.MainPage_requests
       (Login.localStorage
          (Login.state (Login.handleSubmit (inr ("t0k3n", "line2")) Examples3.fresh)))
       "line1" "2024-05-01") /\
  Login.location
    (Login.state (Login.handleSubmit (inr ("t0k3n", "line2")) Examples3.fresh)) =
  "/line1".
Proof.
  assert (N : "t0k3n" <> "") by discriminate.
  pose proof (@X21_login_then_load "t0k3n" "line2" Examples3.fresh
                "line1" "2024-05-01" N) as T.
  cbv zeta in T.
  destruct T as (_ & _ & _ & L & _ & _ & F & _).
  split; [exact F | exact L].
Defined.

(** X22. Whatever the backend answers, a submission of the login form
    sends exactly one request, with the three fields as typed. A login
    that fails stores no token, calls no [login] and stays on the page.
    When the answer has a message that is not empty, the handler returns
    and shows that message; when it returns on any other answer it shows
    'Server Error'; and it throws, showing nothing, exactly when the
    answer has a status and no body. *)
Theorem X22_failed_login (answer : Loader.Failure + string * string)
  (s : Login.State) :
  let o := Login.handleSubmit answer s in
  map (fun r => (Login.sent_username r, Login.sent_password r, Login.sent_line r))
    (Login.sent o) =
  [(Login.username s, Login.password s, Login.line s)] /\
  forall f,
    answer = inl f ->
    Login.localStorage (Login.state o) = Login.localStorage s /\
    Login.logins (Login.state o) = Login.logins s /\
    Login.location (Login.state o) = Login.location s /\
    (forall r m,
       Loader.response f = Some r -> Loader.data r = Some (Some m) -> m <> "" ->
       Login.result o = Ret tt /\ Login.error (Login.state o) = Some m) /\
    ((forall r m,
        Loader.response f = Some r -> Loader.data r = Some (Some m) -> m = "") ->
     Login.result o = Ret tt ->
     Login.error (Login.state o) = Some "Server Error") /\
    (Login.result o <> Ret tt <->
     exists r, Loader.response f = Some r /\ Loader.data r = None) /\
    (Login.result o <> Ret tt -> Login.state o = s).
Proof.
  cbv zeta. split.
  - destruct answer as [f | [token line_]]; cbn.
    + destruct (Loader.response f) as [[st [[m |] |]] |]; reflexivity.
    + reflexivity.
  - intros f ->. cbn [Login.handleSubmit].
    destruct (Loader.response f) as [[st [[m |] |]] |] eqn:R;
      cbn [Loader.data Login.result Login.state Login.setError
           Login.localStorage Login.logins Login.location Login.error];
      (split; [reflexivity |]); (split; [reflexivity |]);
      (split; [reflexivity |]); (split; [| split; [| split]]).
    + intros r m' Hr Hd N. injection Hr as <-. cbn in Hd. injection Hd as <-.
      apply String.eqb_neq in N. rewrite N. split; reflexivity.
    + intros E _. rewrite (E _ m eq_refl eq_refl). reflexivity.
    + split; [intros H; now destruct H | intros (r & Hr & Hd)].
      injection Hr as <-. discriminate Hd.
    + intros H. now destruct H.
    + intros r m' Hr Hd. injection Hr as <-. discriminate Hd.
    + intros _ _. reflexivity.
    + split; [intros H; now destruct H | intros (r & Hr & Hd)].
      injection Hr as <-. discriminate Hd.
    + intros H. now destruct H.
    + intros r m' Hr Hd. injection Hr as <-. discriminate Hd.
    + intros _ H. discriminate H.
    + split; [intros _ | discriminate].
      now exists (Loader.mkErrorResponse st None).
    + intros _. reflexivity.
    + intros r m' Hr. discriminate Hr.
    + intros _ _. reflexivity.
    + split; [intros H; now destruct H | intros (r & Hr & _); discriminate Hr].
    + intros H. now destruct H.
Qed.

Lemma X20_interceptor_witness :
  Api.authorization
    (Api.interceptor [("token", "t0k3n")]
       (Api.mkConfig "/api/operators/line1" (Some [("Authorization", "Bearer old")]))) =
  Some "Bearer t0k3n".
Proof.
  assert (N : "t0k3n" <> "") by discriminate.
  exact (proj1 (proj1 (proj2 (proj2
    (X20_interceptor [("token", "t0k3n")]
       (Api.mkConfig "/api/operators/line1" (Some [("Authorization", "Bearer old")])))))
    "t0k3n" eq_refl N)).
Defined.

Lemma X22_failed_login_witness :
  Login.error
    (Login.state (Login.handleSubmit (inl Examples3.refused) Examples3.fresh)) =
  Some "Invalid credentials" /\
  Login.result (Login.handleSubmit (inl Examples3.bare_refusal) Examples3.fresh) <>
  Ret tt.
Proof.
  split.
  - destruct (proj2 (X22_failed_login (inl Examples3.refused) Examples3.fresh)
                _ eq_refl) as (_ & _ & _ & M & _).
    apply (M (Loader.mkErrorResponse 401 (Some (Some "Invalid credentials")))
             "Invalid credentials" eq_refl eq_refl).
    discriminate.
  - destruct (proj2 (X22_failed_login (inl Examples3.bare_refusal) Examples3.fresh)
                _ eq_refl) as (_ & _ & _ & _ & _ & T & _).
    apply T. now exists (Loader.mkErrorResponse 502 None).
Defined.

(** ** Loading the page *)

Lemma returned_or_not (r : Res unit) : r = Ret tt \/ r <> Ret tt.
Proof.
  destruct r as [[] | e]; [now left | right; discriminate].
Qed.

Lemma report_keeps (f : Loader.Failure) (p : Loader.Page) (sent : list Api.Config) :
  let o := Loader.report f p sent in
  Loader.world (Loader.page o) = Loader.world p /\
  Loader.modelsLoaded (Loader.page o) = Loader.modelsLoaded p /\
  Loader.gets o = sent /\
  Loader.effects o = [console_error "Error loading models or data:"] /\
  (Loader.result o = Ret tt -> Loader.error (Loader.page o) <> Loader.no_banner) /\
  (Loader.result o <> Ret tt -> Loader.error (Loader.page o) = Loader.error p) /\
  (Loader.result o <> Ret tt <->
   exists r, Loader.response f = Some r /\ Loader.data r = None).
Proof.
  cbv zeta. unfold Loader.report.
  destruct (Loader.response f) as [[st [m |]] |];
    cbn [Loader.data Loader.status Loader.world Loader.page Loader.modelsLoaded
         Loader.gets Loader.effects Loader.result Loader.error];
    repeat split; try reflexivity; try congruence.
  - intros [r [H D]]. injection H as <-. discriminate.
  - intros _. now exists (Loader.mkErrorResponse st None).
  - now destruct (Loader.request f).
  - intros [r [H D]]. discriminate.
Qed.

(** X23. Loading a page is all or nothing for the data. When the models
    and both requests succeed, the operators and the attendance of the
    page are replaced by the two answers (by the empty list for a falsy
    list of operators and for an attendance body that is no array), the
    models are marked as loaded, nothing is logged and the error banner
    is left as it was. In every other case the state the modals share is
    exactly as before - the answer of the request that did succeed is
    dropped - one error is logged, and when the handler returns the
    banner is set; the models are marked as loaded whenever they loaded,
    also when the data did not; no request is sent when the models fail,
    and both are sent otherwise. A banner that is shown is never
    cleared. *)
Theorem X23_load_all_or_nothing (sent : list Api.Config) (a : Loader.Answers)
  (p : Loader.Page) :
  let o := Loader.load sent a p in
  let w := Loader.world p in
  let w' := Loader.world (Loader.page o) in
  ((exists ops records,
      Loader.models a = None /\
      Loader.operators_answer a = inr ops /\
      Loader.attendance_answer a = inr records /\
      operators w' = match ops with Some l => l | None => [] end /\
      attendance w' = match records with Some l => l | None => [] end /\
      Loader.result o = Ret tt /\
      Loader.effects o = [] /\
      Loader.error (Loader.page o) = Loader.error p)
   \/
   (w' = w /\
    (Loader.models a <> None \/
     (exists f, Loader.operators_answer a = inl f) \/
     (exists f, Loader.attendance_answer a = inl f)) /\
    Loader.effects o = [console_error "Error loading models or data:"] /\
    (Loader.result o = Ret tt -> Loader.error (Loader.page o) <> Loader.no_banner) /\
    (Loader.result o <> Ret tt -> Loader.error (Loader.page o) = Loader.error p))) /\
  labeledDescriptors w' = labeledDescriptors w /\
  isRecognizing w' = isRecognizing w /\
  webcamRef w' = webcamRef w /\
  formData w' = formData w /\
  mqttService w' = mqttService w /\
  (Loader.modelsLoaded (Loader.page o) = true <->
   Loader.models a = None \/ Loader.modelsLoaded p = true) /\
  Loader.gets o = match Loader.models a with Some _ => [] | None => sent end /\
  (Loader.error (Loader.page o) = Loader.no_banner ->
   Loader.error p = Loader.no_banner).
Proof.
  cbv zeta. unfold Loader.load.
  destruct (Loader.models a) as [f |] eqn:M.
  - destruct (report_keeps f p []) as (W & L & G & E & B & K & _).
    cbv zeta in *. rewrite W, L, G.
    repeat split; try reflexivity.
    + right. repeat split; try assumption. left. discriminate.
    + intros H. now right.
    + intros [H | H]; [discriminate | exact H].
    + intros H. destruct (returned_or_not (Loader.result (Loader.report f p []))) as [R | R].
      * now destruct (B R).
      * now rewrite <- (K R).
  - set (p1 := Loader.mkPage (Loader.world p) true (Loader.error p)).
    assert (F : forall f,
      let o := Loader.report f p1 sent in
      Loader.world (Loader.page o) = Loader.world p /\
      Loader.effects o = [console_error "Error loading models or data:"] /\
      (Loader.result o = Ret tt -> Loader.error (Loader.page o) <> Loader.no_banner) /\
      (Loader.result o <> Ret tt -> Loader.error (Loader.page o) = Loader.error p) /\
      Loader.modelsLoaded (Loader.page o) = true /\
      Loader.gets o = sent /\
      (Loader.error (Loader.page o) = Loader.no_banner ->
       Loader.error p = Loader.no_banner)).
    { intros f. destruct (report_keeps f p1 sent) as (W & L & G & E & B & K & _).
      cbv zeta in *. cbn [p1 Loader.world Loader.modelsLoaded Loader.error] in W, L, K.
      repeat split; try assumption.
      intros H.
      destruct (returned_or_not (Loader.result (Loader.report f p1 sent))) as [R | R].
      - now destruct (B R).
      - now rewrite <- (K R). }
    cbv zeta in F.
    destruct (Loader.operators_answer a) as [f1 | ops] eqn:O;
      destruct (Loader.attendance_answer a) as [f2 | records] eqn:A.
    + destruct (F (if Loader.operators_first a then f1 else f2))
        as (W & E & B & K & L & G & N).
      rewrite W, L, G. repeat split; try reflexivity; try assumption.
      * right. repeat split; try assumption. right. left. now exists f1.
      * intros _. now left.
    + destruct (F f1) as (W & E & B & K & L & G & N).
      rewrite W, L, G. repeat split; try reflexivity; try assumption.
      * right. repeat split; try assumption. right. left. now exists f1.
      * intros _. now left.
    + destruct (F f2) as (W & E & B & K & L & G & N).
      rewrite W, L, G. repeat split; try reflexivity; try assumption.
      * right. repeat split; try assumption. right. right. now exists f2.
      * intros _. now left.
    + cbn. repeat split; try reflexivity.
      * left. exists ops, records. repeat split; reflexivity.
      * intros _. now left.
      * intros H. exact H.
Qed.

Lemma X23_load_all_or_nothing_witness :
  Loader.world
    (Loader.page
       (Loader.MainPage_loadModelsAndData [] "line1" "2024-05-01"
          Examples3.attendance_down Examples3.start)) = Sample.page /\
  Loader.modelsLoaded
    (Loader.page
       (Loader.MainPage_loadModelsAndData [] "line1" "2024-05-01"
          Examples3.attendance_down Examples3.start)) = true.
Proof.
  pose proof (X23_load_all_or_nothing
                (Loader.MainPage_requests [] "line1" "2024-05-01")
                Examples3.attendance_down Examples3.start) as T.
  cbv zeta in T.
  destruct T as ([(ops & records & _ & _ & A & _) | (W & _)] & _ & _ & _ & _ & _ & L & _).
  - discriminate A.
  - split; [exact W | apply L; now left].
Defined.

(** X24. The two pages ask the same two paths, [MainPage1.jsx] at the
    fixed backend, and differ in the header when no usable token is
    stored: with no token [MainPage.jsx] sends no [Authorization] header
    and [MainPage1.jsx] sends [Bearer null]; with an empty token
    [MainPage.jsx] sends none and [MainPage1.jsx] sends [Bearer ] with
    nothing after it; with any other token both send [Bearer <token>]. *)
Theorem X24_page_requests (store : Api.Store) (line_ date_ : string) :
  let plain := Loader.MainPage_requests store line_ date_ in
  let direct := Loader.MainPage1_requests store line_ date_ in
  map Api.url direct =
  map (fun c => (MainPage1.backend ++ Api.url c)%string) plain /\
  map Api.url plain =
  [("/api/operators/" ++ line_)%string;
   ("/api/attendance/" ++ line_ ++ "/" ++ date_)%string] /\
  (Api.getItem "token" store = None ->
   Forall (fun c => Api.authorization c = None) plain /\
   Forall (fun c => Api.authorization c = Some "Bearer null") direct) /\
  (Api.getItem "token" store = Some "" ->
   Forall (fun c => Api.authorization c = None) plain /\
   Forall (fun c => Api.authorization c = Some "Bearer ") direct) /\
  (forall token,
     Api.getItem "token" store = Some token -> token <> "" ->
     Forall (fun c => Api.authorization c = Some ("Bearer " ++ token)%string) plain /\
     Forall (fun c => Api.authorization c = Some ("Bearer " ++ token)%string) direct).
Proof.
  cbv zeta. unfold Loader.MainPage_requests, Loader.MainPage1_requests.
  cbn [map Api.url].
  rewrite !interceptor_url. cbn [Api.url].
  split; [reflexivity |]. split; [reflexivity |].
  split; [| split].
  - intros G. unfold Api.interceptor. rewrite G. split; repeat constructor.
  - intros G. unfold Api.interceptor. rewrite G. cbn. split; repeat constructor.
  - intros token G N. split.
    + repeat constructor; now apply interceptor_token.
    + rewrite G. repeat constructor.
Qed.

Lemma X24_page_requests_witness :
  Forall (fun c => Api.authorization c = None)
    (Loader.MainPage_requests [] "line1" "2024-05-01") /\
  Forall (fun c => Api.authorization c = Some "Bearer null")
    (Loader.MainPage1_requests [] "line1" "2024-05-01").
Proof.
  exact (proj1 (proj2 (proj2 (X24_page_requests [] "line1" "2024-05-01"))) eq_refl).
Defined.
